(** * Voxel reconstruction engine of [main.py]

    A shallow embedding of the look-up-table builder, the per-voxel
    visibility and colour resolver and the reconstruction driver, with the
    properties the design document states about them.

    Conventions of the embedding.
    - Python integers are [Z]; NumPy shapes are [nat].
    - A Python [float] is a finite rational, an infinity or a NaN; a finite
      float is given by its exact rational value.
    - The axes of the voxel grid are computed in IEEE binary64, with the
      operations of the standard library's [SpecFloat], in the order in
      which [np.linspace] performs them.  The division of a grid
      coordinate by 16 is exact in binary64, and so is the mean of up to
      four 8-bit channels before its truncation; both are carried out in
      [Q].
    - Code that can raise returns a [result]; the exceptions are the ones
      the interpreter raises at the modelled statement.
    - A NumPy array is its shape together with its element function. *)

From Stdlib Require Import ZArith QArith List Bool Lia Permutation Sorted.
From Stdlib Require Import SpecFloat.
Import ListNotations.

Open Scope Z_scope.

(** ** Exceptions *)

Inductive exn : Type :=
| IndexError
| ValueError
| OverflowError.

Inductive result (A : Type) : Type :=
| Ok (a : A)
| Raise (e : exn).

Arguments Ok {A} a.
Arguments Raise {A} e.

Definition bind {A B : Type} (r : result A) (k : A -> result B) : result B :=
  match r with
  | Ok a => k a
  | Raise e => Raise e
  end.

Notation "x <- r ;; k" := (bind r (fun x => k))
  (at level 61, r at next level, right associativity).

(** ** Python values *)

Module Py.

(** A Python [float]. *)
Inductive float : Type :=
| Finite (q : Q)
| Inf (negative : bool)
| NaN.

(** Truncation of a rational toward zero. *)
Definition Qtrunc (q : Q) : Z := Z.quot (Qnum q) (Zpos (Qden q)).

(** [int(f)] on a float: truncates toward zero, and raises on the
    non-finite values. *)
Definition int (f : float) : result Z :=
  match f with
  | Finite q => Ok (Qtrunc q)
  | Inf _ => Raise OverflowError
  | NaN => Raise ValueError
  end.

(** Normalisation of a subscript against a length [n]: negative
    subscripts count from the end, anything outside [-n, n) raises. *)
Definition index (n : nat) (i : Z) : result nat :=
  let j := if i <? 0 then i + Z.of_nat n else i in
  if (0 <=? j) && (j <? Z.of_nat n) then Ok (Z.to_nat j)
  else Raise IndexError.

(** [l[i]] on a list, a tuple or the first axis of an array. *)
Definition getitem {A : Type} (l : list A) (i : Z) : result A :=
  j <- index (length l) i ;;
  match nth_error l j with
  | Some a => Ok a
  | None => Raise IndexError
  end.

(** [range(a, b)] *)
Definition range (a b : Z) : list Z :=
  map (fun k => a + Z.of_nat k) (seq 0 (Z.to_nat (b - a))).

(** [d[k] = v] on a dict: an existing key keeps its position, a new key
    goes last. *)
Fixpoint dict_set {V : Type} (d : list (Z * V)) (k : Z) (v : V)
  : list (Z * V) :=
  match d with
  | [] => [(k, v)]
  | (k', v') :: d' =>
      if k' =? k then (k', v) :: d' else (k', v') :: dict_set d' k v
  end.

End Py.

(** ** IEEE binary64 *)

Module F64.

Definition prec : Z := 53.
Definition emax : Z := 1024.

(** The float of an integer, rounded to nearest even. *)
Definition of_Z (z : Z) : spec_float := binary_normalize prec emax z 0 false.

Definition zero : spec_float := S754_zero false.

Definition add : spec_float -> spec_float -> spec_float := SFadd prec emax.
Definition sub : spec_float -> spec_float -> spec_float := SFsub prec emax.
Definition mul : spec_float -> spec_float -> spec_float := SFmul prec emax.
Definition div : spec_float -> spec_float -> spec_float := SFdiv prec emax.

Definition is_finite (f : spec_float) : bool :=
  match f with
  | S754_finite _ _ _ | S754_zero _ => true
  | _ => false
  end.

(** The rational value of a finite float; 0 stands in for the values
    that have none. *)
Definition to_Q (f : spec_float) : Q :=
  match f with
  | S754_finite s m e =>
      let n := if s then Zneg m else Zpos m in
      match e with
      | Zneg p => n # (2 ^ p)
      | _ => inject_Z (n * 2 ^ e)
      end
  | _ => 0%Q
  end.

End F64.

(** ** NumPy arrays *)

Module Np.

(** A two-dimensional array: [shape = (shape0, shape1)], element [a[r, c]]
    for [r < shape0] and [c < shape1].  A colour image of shape
    [(h, w, 3)] is an array of colour triples. *)
Record ndarray2 (T : Type) : Type := mk_ndarray2 {
  shape0 : nat;
  shape1 : nat;
  elem : nat -> nat -> T
}.

Arguments mk_ndarray2 {T} shape0 shape1 elem.
Arguments shape0 {T} n.
Arguments shape1 {T} n.
Arguments elem {T} n r c.

(** [a[y, x]] *)
Definition getitem2 {T : Type} (a : ndarray2 T) (y x : Z) : result T :=
  r <- Py.index (shape0 a) y ;;
  c <- Py.index (shape1 a) x ;;
  Ok (elem a r c).

(** An array whose elements are all [v]. *)
Definition full {T : Type} (h w : nat) (v : T) : ndarray2 T :=
  mk_ndarray2 h w (fun _ _ => v).

(** An array given by its rows. *)
Definition of_rows {T : Type} (d : T) (rows : list (list T)) : ndarray2 T :=
  mk_ndarray2 (length rows) (length (hd [] rows))
              (fun r c => nth c (nth r rows []) d).

(** A four-dimensional array of floats. *)
Record ndarray4 : Type := mk_ndarray4 {
  dims : nat * nat * nat * nat;
  elem4 : nat -> nat -> nat -> nat -> Q
}.

(** [np.linspace(start, stop, num)] on integer bounds, endpoint included,
    in float64 as NumPy computes it: [delta = stop - start],
    [y = arange(0, num)], [step = delta / div] with [div = num - 1],
    [y = y * step] (or [y / div * delta] when the step underflows to 0,
    or [y * delta] when [div] is not positive), [y = y + start], and the
    last sample overwritten with [stop] when [num > 1]. *)
Definition linspace (start stop : Z) (num : nat) : list spec_float :=
  let div := Z.of_nat num - 1 in
  let start := F64.of_Z start in
  let stop := F64.of_Z stop in
  let delta := F64.sub stop start in
  let y := map (fun i => F64.of_Z (Z.of_nat i)) (seq 0 num) in
  let y :=
    if 0 <? div then
      let step := F64.div delta (F64.of_Z div) in
      if SFeqb step F64.zero then
        map (fun v => F64.mul (F64.div v (F64.of_Z div)) delta) y
      else map (fun v => F64.mul v step) y
    else map (fun v => F64.mul v delta) y in
  let y := map (fun v => F64.add v start) y in
  if (1 <? num)%nat then removelast y ++ [stop] else y.

(** [np.array(np.meshgrid(x, y, z))] with the default [indexing='xy']:
    shape [(3, len y, len x, len z)], and at [[c, i, j, k]] the
    coordinate [x[j]], [y[i]] or [z[k]] for [c = 0, 1, 2]. *)
Definition meshgrid (xs ys zs : list Q) : ndarray4 :=
  mk_ndarray4 (3%nat, length ys, length xs, length zs)
    (fun c i j k =>
       match c with
       | O => nth j xs 0%Q
       | S O => nth i ys 0%Q
       | _ => nth k zs 0%Q
       end).

(** [a.T]: the axes reversed. *)
Definition T (a : ndarray4) : ndarray4 :=
  let '(d0, d1, d2, d3) := dims a in
  mk_ndarray4 (d3, d2, d1, d0) (fun i j k l => elem4 a l k j i).

(** Element [f] of the row-major flattening of [a]. *)
Definition flat (a : ndarray4) (f : nat) : Q :=
  let '(_, d1, d2, d3) := dims a in
  elem4 a (f / (d3 * d2 * d1))%nat
          ((f / (d3 * d2)) mod d1)%nat
          ((f / d3) mod d2)%nat
          (f mod d3)%nat.

Definition size (a : ndarray4) : nat :=
  let '(d0, d1, d2, d3) := dims a in (d0 * d1 * d2 * d3)%nat.

(** [a.reshape(-1, 3)]: the rows of three consecutive elements of the
    flattening. *)
Definition reshape_rows3 (a : ndarray4) : list (Q * Q * Q) :=
  map (fun n => (flat a (n * 3), flat a (n * 3 + 1), flat a (n * 3 + 2))%nat)
      (seq 0 (size a / 3)).

(** A pixel colour, one integer per channel. *)
Definition color : Type := Z * Z * Z.

(** [np.mean(colors, axis=0)]: the channel sums divided by the count. *)
Definition mean_axis0 (colors : list color) : Q * Q * Q :=
  let n := inject_Z (Z.of_nat (length colors)) in
  let s := fold_left
             (fun '(a, b, c) '(r, g, bl) => (a + r, b + g, c + bl))
             colors (0, 0, 0) in
  let '(a, b, c) := s in
  (inject_Z a / n, inject_Z b / n, inject_Z c / n)%Q.

(** [.astype(int)] on a float array: truncation toward zero. *)
Definition astype_int (m : Q * Q * Q) : color :=
  let '(a, b, c) := m in (Py.Qtrunc a, Py.Qtrunc b, Py.Qtrunc c).

End Np.

(** ** Thread pool *)

Module Pool.

(** [ThreadPoolExecutor]: the submitted tasks are numbered in submission
    order; a schedule lists the tasks in the order in which the workers
    complete them.  The completed tasks with their results: *)
Definition run {A : Type} (sched : list nat) (tasks : list (unit -> A))
  : list (nat * A) :=
  flat_map (fun t => match nth_error tasks t with
                     | Some task => [(t, task tt)]
                     | None => []
                     end) sched.

(** [future.result()] of task [t]: its result once it has completed;
    [None] when it never completes and the caller waits forever. *)
Definition future_result {A : Type} (done : list (nat * A)) (t : nat)
  : option A :=
  match find (fun p => Nat.eqb (fst p) t) done with
  | Some p => Some (snd p)
  | None => None
  end.

(** A schedule of [n] tasks completes each of them once. *)
Definition fair (n : nat) (sched : list nat) : Prop :=
  Permutation sched (seq 0 n).

End Pool.

(** ** The reconstruction engine *)

Definition point3 : Type := Q * Q * Q.
Definition point2 : Type := Py.float * Py.float.
Definition lut_t : Type := list (Z * list point2).
Definition mask_t : Type := Np.ndarray2 Z.
Definition image_t : Type := Np.ndarray2 Np.color.

(** A line of [voxels.txt]: [ix iy iz] and the three colour channels. *)
Definition record : Type := Z * Z * Z * Z * Z * Z.

Section Engine.

(** Modelled from the spec: [parse_camera_config_from_file] and the
    pinhole projection behind [project_to_2d] live in [helper_functions],
    which is not part of the sources.  [project_point cam_id v] is the 2D
    image point of the voxel centre [v] under the camera model stored for
    [cam_id]. *)
Variable project_point : Z -> point3 -> point2.

(** Modelled from the spec: [project_to_2d] of [helper_functions], with the
    camera given by its id: an ordered sequence of 2D points, of the
    length of the voxel sequence, position [i] holding the projection of
    voxel [i]. *)
Definition project_to_2d (voxels : list point3) (cam_id : Z) : list point2 :=
  map (project_point cam_id) voxels.

(** [create_lut] *)
Definition create_lut (voxels : list point3) : lut_t :=
  fold_left
    (fun lut cam_id =>
       let points_2d := project_to_2d voxels cam_id in
       Py.dict_set lut cam_id points_2d)
    (Py.range 1 5) [].

(** [process_camera] of [create_lut_parallel] *)
Definition process_camera (voxels : list point3) (cam_id : Z)
  : Z * list point2 :=
  let points_2d := project_to_2d voxels cam_id in
  (cam_id, points_2d).

(** The loop over the futures of [create_lut_parallel]. *)
Fixpoint collect_futures (done : list (nat * (Z * list point2)))
         (futures : list nat) (lut : lut_t) : option lut_t :=
  match futures with
  | [] => Some lut
  | future :: rest =>
      match Pool.future_result done future with
      | Some (cam_id, points_2d) =>
          collect_futures done rest (Py.dict_set lut cam_id points_2d)
      | None => None
      end
  end.

(** [create_lut_parallel], under the schedule [sched] of its pool. *)
Definition create_lut_parallel (sched : list nat) (voxels : list point3)
  : option lut_t :=
  let tasks := map (fun cam_id (_ : unit) => process_camera voxels cam_id)
                   (Py.range 1 5) in
  let done := Pool.run sched tasks in
  let futures := seq 0 (length tasks) in
  collect_futures done futures [].

End Engine.

(** The test of line 163,
    [0 <= x < mask.shape[1] and 0 <= y < mask.shape[0]], evaluated left
    to right: the mask list is subscripted only once [0 <= x] holds. *)
Definition in_image (silhouette_masks : list mask_t) (adjusted_cam_id x y : Z)
  : result bool :=
  if 0 <=? x then
    m <- Py.getitem silhouette_masks adjusted_cam_id ;;
    if x <? Z.of_nat (Np.shape1 m) then
      if 0 <=? y then
        m' <- Py.getitem silhouette_masks adjusted_cam_id ;;
        Ok (y <? Z.of_nat (Np.shape0 m'))
      else Ok false
    else Ok false
  else Ok false.

(** The loop of [check_voxel_visibility] over [lut.items()], with the
    colours gathered so far, and the statements after it. *)
Fixpoint visibility_loop (voxel_index : Z) (items : lut_t)
         (silhouette_masks : list mask_t) (color_images : list image_t)
         (colors : list Np.color) : result (option Np.color) :=
  match items with
  | [] =>
      match colors with
      | _ :: _ => Ok (Some (Np.astype_int (Np.mean_axis0 colors)))
      | [] => Ok None
      end
  | (cam_id, points_2d) :: rest =>
      let adjusted_cam_id := cam_id - 1 in
      point <- Py.getitem points_2d voxel_index ;;
      x <- Py.int (fst point) ;;
      y <- Py.int (snd point) ;;
      inside <- in_image silhouette_masks adjusted_cam_id x y ;;
      if inside then
        mask <- Py.getitem silhouette_masks adjusted_cam_id ;;
        v <- Np.getitem2 mask y x ;;
        if v =? 255 then
          image <- Py.getitem color_images adjusted_cam_id ;;
          color <- Np.getitem2 image y x ;;
          visibility_loop voxel_index rest silhouette_masks color_images
                          (colors ++ [color])
        else Ok None
      else
        visibility_loop voxel_index rest silhouette_masks color_images colors
  end.

(** [check_voxel_visibility]: [Ok None] is Python's [None], [Ok (Some c)]
    the averaged colour. *)
Definition check_voxel_visibility (voxel_index : Z) (lut : lut_t)
           (silhouette_masks : list mask_t) (color_images : list image_t)
  : result (option Np.color) :=
  visibility_loop voxel_index lut silhouette_masks color_images [].

(** [int(x / 16)] on a voxel coordinate. *)
Definition grid_index (x : Q) : Z := Py.Qtrunc (x / 16)%Q.

(** The loop of [check_visibility_and_reconstruct] over the voxel indices
    from [voxel_index] on, [voxels] being the voxels still to visit. *)
Fixpoint resolve_loop (voxel_index : nat) (voxels : list point3)
         (lookup_table : lut_t) (silhouette_masks : list mask_t)
         (coloured_images : list image_t) (visible_points : list record)
  : result (list record) :=
  match voxels with
  | [] => Ok visible_points
  | (x, y, z) :: rest =>
      colour <- check_voxel_visibility (Z.of_nat voxel_index) lookup_table
                                       silhouette_masks coloured_images ;;
      match colour with
      | Some (r, g, b) =>
          let ix := grid_index x in
          let iy := grid_index y in
          let iz := grid_index z in
          resolve_loop (S voxel_index) rest lookup_table silhouette_masks
                       coloured_images
                       (visible_points ++ [(ix, iy, iz, r, g, b)])
      | None =>
          resolve_loop (S voxel_index) rest lookup_table silhouette_masks
                       coloured_images visible_points
      end
  end.

(** The three axes of lines 192 to 194, as float64 arrays, and their
    samples as rationals. *)
Definition x_floats : list spec_float := Np.linspace (-1024) 1024 200.
Definition y_floats : list spec_float := Np.linspace (-1024) 1024 200.
Definition z_floats : list spec_float := Np.linspace 0 2048 200.

Definition x_range : list Q := map F64.to_Q x_floats.
Definition y_range : list Q := map F64.to_Q y_floats.
Definition z_range : list Q := map F64.to_Q z_floats.

(** [np.array(np.meshgrid(x, y, z)).T] *)
Definition grid_array (xs ys zs : list Q) : Np.ndarray4 :=
  Np.T (Np.meshgrid xs ys zs).

(** [np.array(np.meshgrid(x, y, z)).T.reshape(-1, 3)] *)
Definition make_grid (xs ys zs : list Q) : list point3 :=
  Np.reshape_rows3 (grid_array xs ys zs).

Definition voxel_grid : list point3 := make_grid x_range y_range z_range.

(** Lines 198 to 211 for a given voxel array: the look-up table, then the
    visible points, which the driver writes out afterwards.  The outer
    [None] is a run that waits forever on a future. *)
Definition reconstruct (project_point : Z -> point3 -> point2)
           (sched : list nat) (voxels : list point3)
           (silhouette_masks : list mask_t) (coloured_images : list image_t)
  : option (result (list record)) :=
  match create_lut_parallel project_point sched voxels with
  | Some lookup_table =>
      Some (resolve_loop 0 voxels lookup_table silhouette_masks
                         coloured_images [])
  | None => None
  end.

(** [check_visibility_and_reconstruct]: the records written to
    [parameters/voxels.txt], one per line and in this order; nothing is
    written when the loop raises. *)
Definition check_visibility_and_reconstruct
           (project_point : Z -> point3 -> point2) (sched : list nat)
           (silhouette_masks : list mask_t) (coloured_images : list image_t)
  : option (result (list record)) :=
  reconstruct project_point sched voxel_grid silhouette_masks coloured_images.


(** * Specification vocabulary *)

(** [z] is [q] truncated toward zero: the integer next to [q] on the side
    of zero. *)
Definition truncation_toward_zero (q : Q) (z : Z) : Prop :=
  ((0 <= q -> inject_Z z <= q /\ q < inject_Z z + 1) /\
   (q <= 0 -> inject_Z z - 1 < q /\ q <= inject_Z z))%Q.

Definition channel_sum (f : Np.color -> Z) (colors : list Np.color) : Z :=
  fold_right Z.add 0 (map f colors).

Definition red (c : Np.color) : Z := fst (fst c).
Definition green (c : Np.color) : Z := snd (fst c).
Definition blue (c : Np.color) : Z := snd c.

(** The componentwise arithmetic mean, each channel truncated toward zero. *)
Definition int_mean (colors : list Np.color) : Np.color :=
  let n := Z.of_nat (length colors) in
  (Z.quot (channel_sum red colors) n,
   Z.quot (channel_sum green colors) n,
   Z.quot (channel_sum blue colors) n).

Inductive view : Type :=
| OutOfBounds
| Background
| Foreground (c : Np.color).

Definition in_bounds {T : Type} (a : Np.ndarray2 T) (x y : Z) : bool :=
  (0 <=? x) && (x <? Z.of_nat (Np.shape1 a)) &&
  (0 <=? y) && (y <? Z.of_nat (Np.shape0 a)).

Definition same_shape {T U : Type} (a : Np.ndarray2 T) (b : Np.ndarray2 U)
  : bool :=
  Nat.eqb (Np.shape0 a) (Np.shape0 b) && Nat.eqb (Np.shape1 a) (Np.shape1 b).

(** The view of voxel [voxel_index] from one entry of the look-up table:
    defined when the LUT holds a finite point at that index and the camera
    has a mask and a colour image of the same shape.  The pixel is the
    point truncated toward zero. *)
Definition camera_view (voxel_index : Z) (silhouette_masks : list mask_t)
           (color_images : list image_t) (item : Z * list point2)
  : option view :=
  let '(cam_id, points_2d) := item in
  match Py.getitem points_2d voxel_index,
        Py.getitem silhouette_masks (cam_id - 1),
        Py.getitem color_images (cam_id - 1) with
  | Ok (Py.Finite qx, Py.Finite qy), Ok mask, Ok image =>
      if same_shape mask image then
        let x := Py.Qtrunc qx in
        let y := Py.Qtrunc qy in
        if in_bounds mask x y then
          if Np.elem mask (Z.to_nat y) (Z.to_nat x) =? 255
          then Some (Foreground (Np.elem image (Z.to_nat y) (Z.to_nat x)))
          else Some Background
        else Some OutOfBounds
      else None
  | _, _, _ => None
  end.

Definition is_background (v : view) : bool :=
  match v with Background => true | _ => false end.

Definition foreground_colors (views : list view) : list Np.color :=
  flat_map (fun v => match v with Foreground c => [c] | _ => [] end) views.

(** The voxels reported visible, in voxel order, each with its colour;
    [colours] lists the resolver's answer for every voxel. *)
Definition visible_voxels (voxels : list point3)
           (colours : list (option Np.color)) : list (point3 * Np.color) :=
  flat_map (fun vc : point3 * option Np.color =>
              match snd vc with
              | Some c => [(fst vc, c)]
              | None => []
              end)
           (combine voxels colours).

(** The record of a visible voxel: each coordinate divided by 16 and
    truncated toward zero, then the colour. *)
Definition record_of (vc : point3 * Np.color) (rec : record) : Prop :=
  let '((x, y, z), (r, g, b)) := vc in
  exists ix iy iz : Z,
    rec = (ix, iy, iz, r, g, b) /\
    truncation_toward_zero (x / 16) ix /\
    truncation_toward_zero (y / 16) iy /\
    truncation_toward_zero (z / 16) iz.

(** The record the driver appends for a visible voxel. *)
Definition to_record (vc : point3 * Np.color) : record :=
  let '((x, y, z), (r, g, b)) := vc in
  (grid_index x, grid_index y, grid_index z, r, g, b).

(** A mask without a single foreground pixel. *)
Definition all_background (m : mask_t) : Prop :=
  forall r c : nat,
    (r < Np.shape0 m)%nat -> (c < Np.shape1 m)%nat -> Np.elem m r c <> 255.

(** Every projection is a pair of finite floats. *)
Definition finite_projection (P : Z -> point3 -> point2) : Prop :=
  forall (cam_id : Z) (v : point3),
    exists qx qy : Q, P cam_id v = (Py.Finite qx, Py.Finite qy).

(** [q] lies within [tol] of 0. *)
Definition small (tol q : Q) : bool := Qle_bool (- tol) q && Qle_bool q tol.

(** Sample [i] lies within [tol] of [start + i * step]. *)
Definition evenly_spaced_within (tol start step : Q) (samples : list Q)
  : bool :=
  forallb (fun i => small tol (nth i samples 0
                               - (start + inject_Z (Z.of_nat i) * step))%Q)
          (seq 0 (length samples)).

(** The gap between two consecutive samples lies within [tol] of
    [step]. *)
Definition gaps_within (tol step : Q) (samples : list Q) : bool :=
  forallb (fun i => small tol (nth (S i) samples 0 - nth i samples 0
                               - step)%Q)
          (seq 0 (length samples - 1)).

(** ** Small scenes *)

Module Scene.

Definition finite2 (x y : Q) : point2 := (Py.Finite x, Py.Finite y).

(** Masks and images of two rows and four columns. *)
Definition white : mask_t := Np.full 2 4 255.
Definition black : mask_t := Np.full 2 4 0.
Definition plain (r : Z) : image_t := Np.full 2 4 (r, 0, 0).

Definition whites : list mask_t := [white; white; white; white].
Definition blacks : list mask_t := [black; black; black; black].
Definition cam1_black : list mask_t := [black; white; white; white].
Definition images : list image_t := [plain 10; plain 20; plain 30; plain 40].

(** One voxel, inside every image. *)
Definition lut_inside : lut_t :=
  [(1, [finite2 1.5 0.5]); (2, [finite2 2.25 1.75]);
   (3, [finite2 0 0]); (4, [finite2 3.9 1.0])].

(** One voxel, left of the image of camera 1 and inside the other three. *)
Definition lut_cam1_outside : lut_t :=
  [(1, [finite2 (-5) 0.5]); (2, [finite2 2.25 1.75]);
   (3, [finite2 0 0]); (4, [finite2 3.9 1.0])].

(** Two voxels, both inside every image. *)
Definition lut_two : lut_t :=
  [(1, [finite2 1.5 0.5; finite2 1 1]); (2, [finite2 2.25 1.75; finite2 0 0]);
   (3, [finite2 0 0; finite2 3 1]); (4, [finite2 3.9 1.0; finite2 2 0])].

(** Two voxels of the same cell of 16 units. *)
Definition voxels_two : list point3 := [(32, -16, 48); (33, -17, 50)]%Q.

(** Two voxels that [drop_z] puts inside an image of two rows and four
    columns. *)
Definition voxels_inside : list point3 := [(1.5, 0.5, 48); (3, 1, 100)]%Q.

(** The images of camera 1 replaced by a larger and by a smaller one than
    its mask. *)
Definition images_cam1_larger : list image_t :=
  [Np.full 3 5 (10, 0, 0); plain 20; plain 30; plain 40].
Definition images_cam1_smaller : list image_t :=
  [Np.full 1 2 (10, 0, 0); plain 20; plain 30; plain 40].

(** A mask of one row whose only foreground pixel is column 2, and its
    image. *)
Definition stripe : mask_t := Np.of_rows 0 [[0; 0; 255; 0]].
Definition stripe_image : image_t :=
  Np.of_rows (0, 0, 0) [[(1, 1, 1); (2, 2, 2); (3, 3, 3); (4, 4, 4)]].

(** A camera that drops the depth: the voxel [(x, y, z)] lands on the
    point [(x, y)] in every view. *)
Definition drop_z (cam_id : Z) (v : point3) : point2 :=
  let '(x, y, _) := v in finite2 x y.

(** As [drop_z], camera 1 looking 100 pixels to the side. *)
Definition drop_z_cam1_aside (cam_id : Z) (v : point3) : point2 :=
  let '(x, y, _) := v in
  if cam_id =? 1 then finite2 (x - 100) y else finite2 x y.

End Scene.

(** * Background subtraction *)

Section Subtraction.

(** Modelled from the spec: the body of [process_camera] in
    [background_subtraction_parallel], which is also the body of the loop
    of [background_subtraction], reads the files of camera [cam_id] with
    OpenCV and calls [subtraction] of [helper_functions], which is not
    part of the sources.  [subtract_camera cam_id] is the pair it returns:
    the foreground mask and the coloured image of that camera. *)
Variable subtract_camera : Z -> mask_t * image_t.

(** [background_subtraction] *)
Definition background_subtraction : list mask_t * list image_t :=
  fold_left
    (fun (acc : list mask_t * list image_t) cam_id =>
       let '(forground_masks, coloured_images) := acc in
       let '(forground_mask, coloured_image) := subtract_camera cam_id in
       (forground_masks ++ [forground_mask],
        coloured_images ++ [coloured_image]))
    (Py.range 1 5) ([], []).

(** [[future.result() for future in futures]] *)
Fixpoint future_results {A : Type} (done : list (nat * A))
         (futures : list nat) : option (list A) :=
  match futures with
  | [] => Some []
  | future :: rest =>
      match Pool.future_result done future with
      | Some r =>
          match future_results done rest with
          | Some rs => Some (r :: rs)
          | None => None
          end
      | None => None
      end
  end.

(** [background_subtraction_parallel], under the schedule [sched] of its
    pool; the final [zip] of the unpacked results is [split]. *)
Definition background_subtraction_parallel (sched : list nat)
  : option (list mask_t * list image_t) :=
  let tasks := map (fun cam_id (_ : unit) => subtract_camera cam_id)
                   (Py.range 1 5) in
  let done := Pool.run sched tasks in
  let futures := seq 0 (length tasks) in
  match future_results done futures with
  | Some results => Some (split results)
  | None => None
  end.

End Subtraction.

(** * Further vocabulary *)

(** The schedule completes every one of the tasks [0 .. n-1]. *)
Definition completes (n : nat) (sched : list nat) : bool :=
  forallb (fun t => existsb (Nat.eqb t) sched) (seq 0 n).

(** Every channel of the colour lies between [lo] and [hi]. *)
Definition color_within (lo hi : Z) (c : Np.color) : Prop :=
  (lo <= red c <= hi) /\ (lo <= green c <= hi) /\ (lo <= blue c <= hi).

(** Every pixel of the image has its channels between [lo] and [hi]. *)
Definition image_within (lo hi : Z) (image : image_t) : Prop :=
  forall r c : nat,
    (r < Np.shape0 image)%nat -> (c < Np.shape1 image)%nat ->
    color_within lo hi (Np.elem image r c).

(** A mask whose pixels are all foreground. *)
Definition all_foreground (m : mask_t) : Prop :=
  forall r c : nat,
    (r < Np.shape0 m)%nat -> (c < Np.shape1 m)%nat -> Np.elem m r c = 255.

(** [m'] has the shape of [m] and is foreground wherever [m] is. *)
Definition mask_le (m m' : mask_t) : Prop :=
  Np.shape0 m = Np.shape0 m' /\ Np.shape1 m = Np.shape1 m' /\
  forall r c : nat,
    (r < Np.shape0 m)%nat -> (c < Np.shape1 m)%nat ->
    Np.elem m r c = 255 -> Np.elem m' r c = 255.

(** ** More scenes *)

Module Scene2.

(** A background subtraction whose mask is all background for camera 1
    and all foreground for the others. *)
Definition subtract (cam_id : Z) : mask_t * image_t :=
  (if cam_id =? 1 then Scene.black else Scene.white, Scene.plain (10 * cam_id)).

(** Camera 1 inside on foreground, camera 2 inside with a mask that is
    background, camera 3 without a point for the voxel, camera 4 with a
    NaN. *)
Definition lut_rejected_by_cam2 : lut_t :=
  [(1, [Scene.finite2 1.5 0.5]); (2, [Scene.finite2 2.25 1.75]);
   (3, []); (4, [(Py.NaN, Py.NaN)])].

Definition masks_cam2_black : list mask_t :=
  [Scene.white; Scene.black; Scene.white; Scene.white].

(** [Scene.lut_inside] with the cameras in another order. *)
Definition lut_inside_shuffled : lut_t :=
  [(3, [Scene.finite2 0 0]); (1, [Scene.finite2 1.5 0.5]);
   (4, [Scene.finite2 3.9 1.0]); (2, [Scene.finite2 2.25 1.75])].

End Scene2.

(** The two tables hold the same cameras with the same point at index
    [i]. *)
Definition same_points_at (i : Z) (lut lut' : lut_t) : Prop :=
  Forall2 (fun a b : Z * list point2 =>
             fst a = fst b /\ Py.getitem (snd a) i = Py.getitem (snd b) i)
          lut lut'.

(** The pixel of camera [cam_id]'s image on which the voxel [v] projects,
    when the projection is finite and the image exists. *)
Definition pixel_color (P : Z -> point3 -> point2) (images : list image_t)
           (cam_id : Z) (v : point3) : Np.color :=
  match P cam_id v, Py.getitem images (cam_id - 1) with
  | (Py.Finite qx, Py.Finite qy), Ok image =>
      Np.elem image (Z.to_nat (Py.Qtrunc qy)) (Z.to_nat (Py.Qtrunc qx))
  | _, _ => (0, 0, 0)
  end.

(** The record of a voxel coloured with the mean of its four pixels. *)
Definition mean_record (P : Z -> point3 -> point2) (images : list image_t)
           (v : point3) : record :=
  to_record (v, int_mean [pixel_color P images 1 v; pixel_color P images 2 v;
                          pixel_color P images 3 v; pixel_color P images 4 v]).

(** Camera [cam_id] has a mask, and the voxel [v] projects on a finite
    point whose pixel lies inside it. *)
Definition projects_inside (P : Z -> point3 -> point2)
           (masks : list mask_t) (cam_id : Z) (v : point3) : Prop :=
  exists (qx qy : Q) (m : mask_t),
    P cam_id v = (Py.Finite qx, Py.Finite qy) /\
    Py.getitem masks (cam_id - 1) = Ok m /\
    in_bounds m (Py.Qtrunc qx) (Py.Qtrunc qy) = true.

(** No two elements of the list are equal as rationals. *)
Fixpoint distinct (l : list Q) : bool :=
  match l with
  | [] => true
  | q :: l' => negb (existsb (Qeq_bool q) l') && distinct l'
  end.

(** The grid index of every sample lies between [lo] and [hi]. *)
Definition indices_within (lo hi : Z) (samples : list Q) : bool :=
  forallb (fun x => (lo <=? grid_index x) && (grid_index x <=? hi)) samples.

Definition is_finite (f : Py.float) : bool :=
  match f with
  | Py.Finite _ => true
  | _ => false
  end.

Module Scene3.

(** A camera 1 whose projection of the voxels with [z = 100] is not a
    number. *)
Definition nan_at_100 (cam_id : Z) (v : point3) : point2 :=
  let '(x, y, z) := v in
  if (cam_id =? 1) && Qeq_bool z 100 then (Py.NaN, Py.Finite y)
  else Scene.finite2 x y.

End Scene3.

(** The indices, counted from [k], at which [colours] holds a colour,
    each with that colour; [colours] lists the resolver's answers for the
    voxels [k], [k + 1], ... *)
Fixpoint picks (k : nat) (colours : list (option Np.color))
  : list (nat * Np.color) :=
  match colours with
  | [] => []
  | Some c :: rest => (k, c) :: picks (S k) rest
  | None :: rest => picks (S k) rest
  end.

(** [rec] is the record of the voxel of index [fst nc] with the colour
    [snd nc]. *)
Definition record_at (voxels : list point3) (nc : nat * Np.color)
           (rec : record) : Prop :=
  exists (x y z : Q) (r g b : Z),
    nth_error voxels (fst nc) = Some (x, y, z) /\
    snd nc = (r, g, b) /\
    rec = (grid_index x, grid_index y, grid_index z, r, g, b).

(** * Properties *)

(** ** Subscripts *)

Lemma index_in_range (n : nat) (i : Z) :
  0 <= i < Z.of_nat n -> Py.index n i = Ok (Z.to_nat i).
Proof.
  intros H. unfold Py.index.
  destruct (Z.ltb_spec i 0); [lia|].
  destruct (Z.leb_spec 0 i); [|lia].
  destruct (Z.ltb_spec i (Z.of_nat n)); [reflexivity|lia].
Qed.

Lemma index_of_nat (n k : nat) :
  (k < n)%nat -> Py.index n (Z.of_nat k) = Ok k.
Proof.
  intros H. rewrite index_in_range by lia. now rewrite Nat2Z.id.
Qed.

Lemma index_past_end (n : nat) (i : Z) :
  Z.of_nat n <= i -> Py.index n i = Raise IndexError.
Proof.
  intros H. unfold Py.index.
  destruct (Z.ltb_spec i 0); [lia|].
  destruct (Z.ltb_spec i (Z.of_nat n)); [lia|].
  now rewrite andb_false_r.
Qed.

Lemma getitem_of_nat {A : Type} (l : list A) (k : nat) (a : A) :
  nth_error l k = Some a -> Py.getitem l (Z.of_nat k) = Ok a.
Proof.
  intros H. unfold Py.getitem.
  rewrite index_of_nat by (apply nth_error_Some; congruence).
  simpl. now rewrite H.
Qed.

Lemma getitem_past_end {A : Type} (l : list A) (i : Z) :
  Z.of_nat (length l) <= i -> Py.getitem l i = Raise IndexError.
Proof.
  intros H. unfold Py.getitem. now rewrite index_past_end.
Qed.

Lemma getitem2_in_range {T : Type} (a : Np.ndarray2 T) (y x : Z) :
  0 <= y < Z.of_nat (Np.shape0 a) -> 0 <= x < Z.of_nat (Np.shape1 a) ->
  Np.getitem2 a y x = Ok (Np.elem a (Z.to_nat y) (Z.to_nat x)).
Proof.
  intros Hy Hx. unfold Np.getitem2.
  now rewrite !index_in_range.
Qed.

(** ** Truncation toward zero *)

Lemma Qtrunc_truncates (q : Q) : truncation_toward_zero q (Py.Qtrunc q).
Proof.
  destruct q as [n d]. unfold truncation_toward_zero, Py.Qtrunc.
  unfold Qle, Qlt. simpl.
  pose proof (Z.quot_rem' n (Zpos d)) as E.
  split; intros H.
  - assert (Hn : 0 <= n) by lia.
    pose proof (Z.rem_bound_pos n (Zpos d) Hn ltac:(lia)). nia.
  - assert (Hn : n <= 0) by lia.
    pose proof (Z.rem_bound_pos_neg n (Zpos d) ltac:(lia) Hn). nia.
Qed.

Lemma truncation_unique (q : Q) (z : Z) :
  truncation_toward_zero q z -> z = Py.Qtrunc q.
Proof.
  intros Hz. pose proof (Qtrunc_truncates q) as Ht. revert Hz Ht.
  generalize (Py.Qtrunc q) as t.
  destruct q as [n d]. unfold truncation_toward_zero, Qle, Qlt. simpl.
  intros t [Hp Hn] [Hp' Hn'].
  destruct (Z.le_ge_cases 0 n) as [H|H].
  - specialize (Hp ltac:(lia)). specialize (Hp' ltac:(lia)). nia.
  - specialize (Hn ltac:(lia)). specialize (Hn' ltac:(lia)). nia.
Qed.

Lemma Qtrunc_inject_div (a : Z) (n : positive) :
  Py.Qtrunc (inject_Z a / inject_Z (Zpos n)) = Z.quot a (Zpos n).
Proof.
  unfold Py.Qtrunc, Qdiv, Qmult, Qinv, inject_Z. simpl.
  now rewrite Z.mul_1_r.
Qed.

(** ** The integer mean of colours *)

Lemma fold_left_channels (colors : list Np.color) (a b c : Z) :
  fold_left (fun '(a, b, c) '(r, g, bl) => (a + r, b + g, c + bl))
            colors (a, b, c)
  = (a + channel_sum red colors, b + channel_sum green colors,
     c + channel_sum blue colors).
Proof.
  revert a b c. induction colors as [|[[r g] bl] colors IH]; intros a b c.
  - unfold channel_sum. simpl. now rewrite !Z.add_0_r.
  - simpl fold_left. rewrite IH. unfold channel_sum, red, green, blue. simpl.
    f_equal; [f_equal|]; lia.
Qed.

Lemma astype_int_mean (colors : list Np.color) :
  colors <> [] -> Np.astype_int (Np.mean_axis0 colors) = int_mean colors.
Proof.
  intros Hne. unfold Np.mean_axis0, int_mean.
  rewrite fold_left_channels. cbv zeta. rewrite !Z.add_0_l.
  destruct colors as [|c0 colors]; [congruence|].
  remember (c0 :: colors) as cs eqn:Ecs.
  assert (Hlen : exists p, Z.of_nat (length cs) = Zpos p).
  { subst cs. simpl length. rewrite Nat2Z.inj_succ.
    destruct (Z.succ (Z.of_nat (length colors))) eqn:E; try lia.
    now exists p. }
  destruct Hlen as [p Hp]. rewrite Hp.
  unfold Np.astype_int. now rewrite !Qtrunc_inject_div.
Qed.

(** ** What one camera sees of a voxel *)

Lemma in_image_in_bounds (masks : list mask_t) (adj x y : Z) (m : mask_t) :
  Py.getitem masks adj = Ok m ->
  in_image masks adj x y = Ok (in_bounds m x y).
Proof.
  intros Hm. unfold in_image, in_bounds. rewrite Hm. simpl.
  destruct (0 <=? x); simpl; [|reflexivity].
  destruct (x <? Z.of_nat (Np.shape1 m)); simpl; [|reflexivity].
  destruct (0 <=? y); reflexivity.
Qed.

Lemma in_bounds_range {T : Type} (a : Np.ndarray2 T) (x y : Z) :
  in_bounds a x y = true ->
  0 <= y < Z.of_nat (Np.shape0 a) /\ 0 <= x < Z.of_nat (Np.shape1 a).
Proof.
  unfold in_bounds. rewrite !andb_true_iff.
  rewrite !Z.leb_le, !Z.ltb_lt. lia.
Qed.

Lemma in_bounds_same_shape {T U : Type} (a : Np.ndarray2 T)
      (b : Np.ndarray2 U) (x y : Z) :
  same_shape a b = true -> in_bounds b x y = in_bounds a x y.
Proof.
  unfold same_shape, in_bounds. rewrite andb_true_iff, !Nat.eqb_eq.
  now intros [-> ->].
Qed.

(** One iteration of the loop, for a camera with a defined view. *)
Lemma visibility_loop_step (i : Z) (item : Z * list point2) (rest : lut_t)
      (masks : list mask_t) (images : list image_t)
      (colors : list Np.color) (v : view) :
  camera_view i masks images item = Some v ->
  visibility_loop i (item :: rest) masks images colors =
  match v with
  | OutOfBounds => visibility_loop i rest masks images colors
  | Background => Ok None
  | Foreground c => visibility_loop i rest masks images (colors ++ [c])
  end.
Proof.
  destruct item as [cam_id points_2d]. unfold camera_view. simpl.
  destruct (Py.getitem points_2d i) as [[[qx| |] [qy| |]]|]; try discriminate.
  destruct (Py.getitem masks (cam_id - 1)) as [mask|] eqn:Hm; try discriminate.
  destruct (Py.getitem images (cam_id - 1)) as [image|] eqn:Hi;
    try discriminate.
  destruct (same_shape mask image) eqn:Hs; try discriminate.
  simpl. rewrite (in_image_in_bounds _ _ _ _ _ Hm). simpl.
  destruct (in_bounds mask (Py.Qtrunc qx) (Py.Qtrunc qy)) eqn:Hb.
  - destruct (in_bounds_range _ _ _ Hb) as [Hy Hx].
    rewrite (getitem2_in_range mask) by assumption. simpl.
    rewrite <- (in_bounds_same_shape _ _ _ _ Hs) in Hb.
    destruct (in_bounds_range _ _ _ Hb) as [Hy' Hx'].
    rewrite (getitem2_in_range image) by assumption. simpl.
    destruct (_ =? 255); intros [= <-]; reflexivity.
  - intros [= <-]. reflexivity.
Qed.

(** The whole loop, for cameras that all have a defined view. *)
Lemma visibility_loop_views (i : Z) (masks : list mask_t)
      (images : list image_t) (lut : lut_t) (views : list view)
      (colors : list Np.color) :
  map (camera_view i masks images) lut = map Some views ->
  visibility_loop i lut masks images colors =
  if existsb is_background views then Ok None
  else match colors ++ foreground_colors views with
       | [] => Ok None
       | cs => Ok (Some (Np.astype_int (Np.mean_axis0 cs)))
       end.
Proof.
  revert views colors.
  induction lut as [|item lut IH]; intros [|v views] colors Hv;
    try discriminate.
  - simpl. rewrite app_nil_r. destruct colors; reflexivity.
  - simpl map in Hv. injection Hv as Hv1 Hv2.
    rewrite (visibility_loop_step _ _ _ _ _ _ _ Hv1).
    destruct v; simpl existsb; simpl foreground_colors.
    + apply IH, Hv2.
    + reflexivity.
    + rewrite (IH _ _ Hv2). now rewrite <- app_assoc.
Qed.


(** ** The resolver *)

(** C1, at an input where the resolver departs from it: the voxel
    projects to the left of camera 1's image, whose mask is moreover all
    background, and onto foreground in cameras 2 to 4; the resolver skips
    camera 1 and reports the voxel visible, with the mean of the three
    other colours; and a whole pass in which camera 1 looks aside of both
    voxels writes both of them, although the mask of camera 1 is all
    background. *)
Theorem C1_out_of_bounds_camera_skipped :
  map (camera_view 0 Scene.cam1_black Scene.images) Scene.lut_cam1_outside
  = [Some OutOfBounds; Some (Foreground (20, 0, 0));
     Some (Foreground (30, 0, 0)); Some (Foreground (40, 0, 0))] /\
  check_voxel_visibility 0 Scene.lut_cam1_outside Scene.cam1_black
                         Scene.images
  = Ok (Some (30, 0, 0)) /\
  reconstruct Scene.drop_z_cam1_aside [0; 1; 2; 3]%nat Scene.voxels_inside
              Scene.cam1_black Scene.images
  = Some (Ok [(0, 0, 3, 30, 0, 0); (0, 0, 6, 30, 0, 0)]).
Proof. repeat split; reflexivity. Qed.

(** C2: a voxel that all four cameras see on foreground gets the
    componentwise arithmetic mean of the four pixel colours, each channel
    truncated to an integer. *)
Theorem C2_color_is_mean_of_four (i : Z) (lut : lut_t)
        (masks : list mask_t) (images : list image_t)
        (c1 c2 c3 c4 : Np.color) :
  map (camera_view i masks images) lut =
    [Some (Foreground c1); Some (Foreground c2);
     Some (Foreground c3); Some (Foreground c4)] ->
  check_voxel_visibility i lut masks images =
  Ok (Some (Z.quot (red c1 + red c2 + red c3 + red c4) 4,
            Z.quot (green c1 + green c2 + green c3 + green c4) 4,
            Z.quot (blue c1 + blue c2 + blue c3 + blue c4) 4)).
Proof.
  intros Hv. unfold check_voxel_visibility.
  rewrite (visibility_loop_views i masks images lut
             [Foreground c1; Foreground c2; Foreground c3; Foreground c4] []
             Hv).
  cbn [existsb is_background orb foreground_colors flat_map app].
  rewrite astype_int_mean by discriminate.
  unfold int_mean, channel_sum. cbn [map fold_right length].
  rewrite !Z.add_0_r, !Z.add_assoc. reflexivity.
Qed.

(** The colours (10,0,0), (20,0,0), (30,0,0), (40,0,0) average to
    (25,0,0). *)
Lemma C2_witness :
  check_voxel_visibility 0 Scene.lut_inside Scene.whites Scene.images
  = Ok (Some (25, 0, 0)).
Proof.
  exact (C2_color_is_mean_of_four 0 Scene.lut_inside Scene.whites
           Scene.images (10, 0, 0) (20, 0, 0) (30, 0, 0) (40, 0, 0) eq_refl).
Defined.

(** C3: in every iteration of the resolver's loop the point read from the
    look-up table is turned into the pixel [(x, y)] by truncation toward
    zero, and it is this pixel that the bounds check, the mask lookup and
    the colour lookup use. *)
Theorem C3_pixel_by_truncation (i cam_id : Z) (points_2d : list point2)
        (rest : lut_t) (masks : list mask_t) (images : list image_t)
        (colors : list Np.color) (qx qy : Q) (x y : Z)
        (mask : mask_t) (image : image_t) :
  Py.getitem points_2d i = Ok (Py.Finite qx, Py.Finite qy) ->
  truncation_toward_zero qx x ->
  truncation_toward_zero qy y ->
  Py.getitem masks (cam_id - 1) = Ok mask ->
  Py.getitem images (cam_id - 1) = Ok image ->
  same_shape mask image = true ->
  Py.int (Py.Finite qx) = Ok x /\
  Py.int (Py.Finite qy) = Ok y /\
  visibility_loop i ((cam_id, points_2d) :: rest) masks images colors =
  if in_bounds mask x y then
    if Np.elem mask (Z.to_nat y) (Z.to_nat x) =? 255 then
      visibility_loop i rest masks images
                      (colors ++ [Np.elem image (Z.to_nat y) (Z.to_nat x)])
    else Ok None
  else visibility_loop i rest masks images colors.
Proof.
  intros Hp Hx Hy Hm Hi Hs.
  apply truncation_unique in Hx, Hy. subst x y.
  split; [reflexivity|]. split; [reflexivity|].
  assert (Hv : camera_view i masks images (cam_id, points_2d) =
               Some (if in_bounds mask (Py.Qtrunc qx) (Py.Qtrunc qy) then
                       if Np.elem mask (Z.to_nat (Py.Qtrunc qy))
                                  (Z.to_nat (Py.Qtrunc qx)) =? 255
                       then Foreground
                              (Np.elem image (Z.to_nat (Py.Qtrunc qy))
                                       (Z.to_nat (Py.Qtrunc qx)))
                       else Background
                     else OutOfBounds)).
  { unfold camera_view. rewrite Hp, Hm, Hi, Hs.
    destruct (in_bounds _ _ _); [destruct (_ =? 255)|]; reflexivity. }
  rewrite (visibility_loop_step _ _ _ _ _ _ _ Hv).
  destruct (in_bounds _ _ _); [destruct (_ =? 255)|]; reflexivity.
Qed.

(** The point (2.7, -0.5) is read at pixel (2, 0): rounding to nearest
    would take column 3, which is background, and rounding down would
    take row -1, which is outside the image. *)
Lemma C3_witness :
  (truncation_toward_zero 2.7 2 /\ truncation_toward_zero (-0.5) 0) /\
  Py.int (Py.Finite 2.7) = Ok 2 /\
  Py.int (Py.Finite (-0.5)) = Ok 0 /\
  visibility_loop 0 [(1, [Scene.finite2 2.7 (-0.5)])]
                  [Scene.stripe] [Scene.stripe_image] []
  = Ok (Some (3, 3, 3)).
Proof.
  assert (Hx : truncation_toward_zero 2.7 2).
  { unfold truncation_toward_zero, Qle, Qlt. simpl. lia. }
  assert (Hy : truncation_toward_zero (-0.5) 0).
  { unfold truncation_toward_zero, Qle, Qlt. simpl. lia. }
  split; [split; assumption|].
  exact (C3_pixel_by_truncation 0 1 [Scene.finite2 2.7 (-0.5)] []
           [Scene.stripe] [Scene.stripe_image] [] 2.7 (-0.5) 2 0
           Scene.stripe Scene.stripe_image
           eq_refl Hx Hy eq_refl eq_refl eq_refl).
Defined.

Lemma existsb_background (views : list view) :
  existsb is_background views = true <-> In Background views.
Proof.
  rewrite existsb_exists. split.
  - intros [v [Hin Hb]]. destruct v; try discriminate. exact Hin.
  - intros Hin. exists Background. split; [exact Hin|reflexivity].
Qed.

Lemma no_foreground_all_outside (views : list view) :
  ~ In Background views -> foreground_colors views = [] ->
  Forall (fun v => v = OutOfBounds) views.
Proof.
  induction views as [|v views IH]; intros Hbg Hfg; [constructor|].
  destruct v; simpl in *.
  - constructor; [reflexivity|]. apply IH; tauto.
  - tauto.
  - discriminate.
Qed.

Lemma all_outside_no_foreground (views : list view) :
  Forall (fun v => v = OutOfBounds) views -> foreground_colors views = [].
Proof.
  induction 1 as [|v views Hv _ IH]; [reflexivity|].
  subst v. exact IH.
Qed.

Lemma foreground_colors_length (views : list view) :
  (length (foreground_colors views) <= length views)%nat.
Proof.
  induction views as [|v views IH]; [apply Nat.le_refl|].
  destruct v; simpl; lia.
Qed.

(** C10: a camera in which the truncated projection is out of bounds is
    skipped.  With every camera's view defined: if some camera sees the
    voxel on foreground and none sees it on a non-foreground pixel, the
    result is the truncated mean of the colours of the in-bounds cameras
    only, which may be fewer than the cameras; and the result is [None]
    exactly when some camera is in bounds on a non-foreground pixel or no
    camera is in bounds. *)
Theorem C10_out_of_bounds_cameras_skipped (i : Z) (lut : lut_t)
        (masks : list mask_t) (images : list image_t) (views : list view) :
  map (camera_view i masks images) lut = map Some views ->
  (~ In Background views -> foreground_colors views <> [] ->
   check_voxel_visibility i lut masks images
   = Ok (Some (int_mean (foreground_colors views)))) /\
  (check_voxel_visibility i lut masks images = Ok None <->
   In Background views \/ Forall (fun v => v = OutOfBounds) views) /\
  (length (foreground_colors views) <= length lut)%nat.
Proof.
  intros Hv. unfold check_voxel_visibility.
  rewrite (visibility_loop_views _ _ _ _ _ [] Hv). rewrite app_nil_l.
  split; [|split].
  - intros Hbg Hfg.
    destruct (existsb is_background views) eqn:E.
    + apply existsb_background in E. contradiction.
    + destruct (foreground_colors views) eqn:Ec; [congruence|].
      rewrite astype_int_mean by discriminate. reflexivity.
  - destruct (existsb is_background views) eqn:E.
    + apply existsb_background in E. tauto.
    + assert (Hbg : ~ In Background views).
      { intros H. apply existsb_background in H. congruence. }
      destruct (foreground_colors views) eqn:Ec.
      * split; [intros _|reflexivity].
        right. now apply no_foreground_all_outside.
      * split; [discriminate|].
        intros [H|H]; [contradiction|].
        apply all_outside_no_foreground in H. congruence.
  - apply (f_equal (@length _)) in Hv. rewrite !length_map in Hv.
    rewrite Hv. apply foreground_colors_length.
Qed.

(** Camera 1 is out of bounds and the other three see foreground: the
    colour is the mean of three colours. *)
Lemma C10_witness :
  (check_voxel_visibility 0 Scene.lut_cam1_outside Scene.whites Scene.images
   = Ok (Some (30, 0, 0))) /\
  (check_voxel_visibility 0 Scene.lut_cam1_outside Scene.whites Scene.images
   = Ok None <->
   In Background [OutOfBounds; Foreground (20, 0, 0); Foreground (30, 0, 0);
                  Foreground (40, 0, 0)] \/
   Forall (fun v => v = OutOfBounds)
          [OutOfBounds; Foreground (20, 0, 0); Foreground (30, 0, 0);
           Foreground (40, 0, 0)]) /\
  (3 <= 4)%nat.
Proof.
  destruct (C10_out_of_bounds_cameras_skipped 0 Scene.lut_cam1_outside
              Scene.whites Scene.images
              [OutOfBounds; Foreground (20, 0, 0); Foreground (30, 0, 0);
               Foreground (40, 0, 0)] eq_refl) as [H1 [H2 H3]].
  split; [|split; [exact H2|exact H3]].
  apply H1.
  - simpl. intros [H|[H|[H|[H|[]]]]]; discriminate.
  - discriminate.
Defined.

(** ** The look-up table *)

Lemma future_result_run {A : Type} (sched : list nat)
      (tasks : list (unit -> A)) (t : nat) (task : unit -> A) :
  In t sched -> nth_error tasks t = Some task ->
  Pool.future_result (Pool.run sched tasks) t = Some (task tt).
Proof.
  intros Hin Ht. unfold Pool.future_result, Pool.run.
  induction sched as [|s sched IH]; [destruct Hin|].
  simpl flat_map.
  destruct (Nat.eq_dec s t) as [->|Hne].
  - rewrite Ht. simpl. now rewrite Nat.eqb_refl.
  - destruct Hin as [E|Hin]; [contradiction|].
    destruct (nth_error tasks s) as [task'|].
    + simpl. apply Nat.eqb_neq in Hne. rewrite Hne. now apply IH.
    + simpl. now apply IH.
Qed.

Lemma fair_complete (n : nat) (sched : list nat) (t : nat) :
  Pool.fair n sched -> (t < n)%nat -> In t sched.
Proof.
  intros Hf Ht. apply (Permutation_in t (Permutation_sym Hf)).
  apply in_seq. lia.
Qed.

(** A schedule in which camera 3 finishes first and camera 2 last. *)
Lemma fair_2031 : Pool.fair 4 [2; 0; 3; 1]%nat.
Proof.
  unfold Pool.fair. simpl. apply Permutation_sym.
  apply (perm_trans (l' := [0; 2; 1; 3]%nat)).
  - apply perm_skip. apply perm_swap.
  - apply (perm_trans (l' := [2; 0; 1; 3]%nat)); [apply perm_swap|].
    do 2 apply perm_skip. apply perm_swap.
Qed.

Lemma create_lut_items (P : Z -> point3 -> point2) (voxels : list point3) :
  create_lut P voxels =
  [(1, project_to_2d P voxels 1); (2, project_to_2d P voxels 2);
   (3, project_to_2d P voxels 3); (4, project_to_2d P voxels 4)].
Proof. reflexivity. Qed.

(** Whatever the order in which the workers finish, the parallel builder
    returns the table of the sequential one. *)
Lemma create_lut_parallel_fair (P : Z -> point3 -> point2)
      (sched : list nat) (voxels : list point3) :
  Pool.fair 4 sched ->
  create_lut_parallel P sched voxels = Some (create_lut P voxels).
Proof.
  intros Hf. unfold create_lut_parallel.
  change (Py.range 1 5) with [1; 2; 3; 4].
  cbn [map length seq].
  set (tasks := [fun _ : unit => process_camera P voxels 1;
                 fun _ : unit => process_camera P voxels 2;
                 fun _ : unit => process_camera P voxels 3;
                 fun _ : unit => process_camera P voxels 4]).
  assert (Hr : forall t task, (t < 4)%nat -> nth_error tasks t = Some task ->
               Pool.future_result (Pool.run sched tasks) t = Some (task tt)).
  { intros t task Ht E. apply future_result_run; [|exact E].
    now apply (fair_complete 4). }
  cbn [collect_futures].
  rewrite (Hr 0%nat _ ltac:(lia) eq_refl).
  rewrite (Hr 1%nat _ ltac:(lia) eq_refl).
  rewrite (Hr 2%nat _ ltac:(lia) eq_refl).
  rewrite (Hr 3%nat _ ltac:(lia) eq_refl).
  reflexivity.
Qed.

(** C6: the table returned by [create_lut_parallel] has exactly the keys
    1, 2, 3, 4, and under each key a sequence as long as the voxel
    sequence whose position [i] is the projection of voxel [i]. *)
Theorem C6_lut_keys_and_lengths (P : Z -> point3 -> point2)
        (sched : list nat) (voxels : list point3) :
  Pool.fair 4 sched ->
  exists lut : lut_t,
    create_lut_parallel P sched voxels = Some lut /\
    map fst lut = [1; 2; 3; 4] /\
    forall (c : Z) (points_2d : list point2),
      In (c, points_2d) lut ->
      length points_2d = length voxels /\
      forall (i : nat) (v : point3),
        nth_error voxels i = Some v ->
        nth_error points_2d i = Some (P c v).
Proof.
  intros Hf. exists (create_lut P voxels).
  split; [now apply create_lut_parallel_fair|].
  rewrite create_lut_items. split; [reflexivity|].
  intros c pts Hin.
  assert (E : pts = project_to_2d P voxels c).
  { simpl in Hin.
    destruct Hin as [H|[H|[H|[H|[]]]]]; injection H as <- <-; reflexivity. }
  subst pts. unfold project_to_2d. split; [apply length_map|].
  intros i v Hv. now rewrite nth_error_map, Hv.
Qed.

Lemma C6_witness :
  exists lut : lut_t,
    create_lut_parallel Scene.drop_z [2; 0; 3; 1]%nat
                        [(1.5, 0.5, 7); (3, 1, 9)]%Q = Some lut /\
    map fst lut = [1; 2; 3; 4] /\
    forall (c : Z) (points_2d : list point2),
      In (c, points_2d) lut ->
      length points_2d = 2%nat /\
      forall (i : nat) (v : point3),
        nth_error [(1.5, 0.5, 7); (3, 1, 9)]%Q i = Some v ->
        nth_error points_2d i = Some (Scene.drop_z c v).
Proof.
  apply (C6_lut_keys_and_lengths Scene.drop_z [2; 0; 3; 1]%nat
           [(1.5, 0.5, 7); (3, 1, 9)]%Q).
  exact fair_2031.
Defined.

(** ** The driver *)

(** The loop over the voxels when the resolver returns for every voxel:
    one record per visible voxel, appended in voxel order. *)
Lemma resolve_loop_records (lut : lut_t) (masks : list mask_t)
      (images : list image_t) (voxels : list point3) :
  forall (k : nat) (colours : list (option Np.color)) (acc : list record),
    length colours = length voxels ->
    (forall (n : nat) (c : option Np.color),
        nth_error colours n = Some c ->
        check_voxel_visibility (Z.of_nat (k + n)) lut masks images = Ok c) ->
    resolve_loop k voxels lut masks images acc =
    Ok (acc ++ map to_record (visible_voxels voxels colours)).
Proof.
  induction voxels as [|[[x y] z] voxels IH]; intros k colours acc Hl Hc.
  - destruct colours; [|discriminate]. simpl. now rewrite app_nil_r.
  - destruct colours as [|c colours]; [discriminate|].
    simpl resolve_loop.
    pose proof (Hc 0%nat c eq_refl) as H0. rewrite Nat.add_0_r in H0.
    rewrite H0. simpl bind.
    assert (Hc' : forall n c', nth_error colours n = Some c' ->
              check_voxel_visibility (Z.of_nat (S k + n)) lut masks images
              = Ok c').
    { intros n c' Hn. specialize (Hc (S n) c' Hn).
      now replace (S k + n)%nat with (k + S n)%nat by lia. }
    injection Hl as Hl.
    destruct c as [[[r g] b]|].
    + rewrite (IH (S k) colours _ Hl Hc').
      unfold visible_voxels. simpl. now rewrite <- app_assoc.
    + rewrite (IH (S k) colours _ Hl Hc'). reflexivity.
Qed.

Lemma to_record_record_of (vc : point3 * Np.color) :
  record_of vc (to_record vc).
Proof.
  destruct vc as [[[x y] z] [[r g] b]]. simpl.
  exists (grid_index x), (grid_index y), (grid_index z).
  split; [reflexivity|].
  split; [apply Qtrunc_truncates|].
  split; apply Qtrunc_truncates.
Qed.

(** C4: the integer indices of a visible voxel [(x, y, z)] are [x/16],
    [y/16] and [z/16] truncated toward zero, so that (32, -16, 48) gives
    (2, -1, 3); and the output has one record per visible voxel, in voxel
    order, equal index triples included. *)
Theorem C4_indices_scaled_by_16 (lut : lut_t) (masks : list mask_t)
        (images : list image_t) (voxels : list point3)
        (colours : list (option Np.color)) :
  length colours = length voxels ->
  (forall (n : nat) (c : option Np.color),
      nth_error colours n = Some c ->
      check_voxel_visibility (Z.of_nat n) lut masks images = Ok c) ->
  (exists out : list record,
      resolve_loop 0 voxels lut masks images [] = Ok out /\
      Forall2 record_of (visible_voxels voxels colours) out) /\
  (forall (r g b : Z) (rec : record),
      record_of ((32, -16, 48)%Q, (r, g, b)) rec ->
      rec = (2, -1, 3, r, g, b)).
Proof.
  intros Hl Hc. split.
  - exists (map to_record (visible_voxels voxels colours)). split.
    + now rewrite (resolve_loop_records lut masks images voxels 0 colours []).
    + induction (visible_voxels voxels colours) as [|vc l IH];
        constructor; [apply to_record_record_of|exact IH].
  - intros r g b rec (ix & iy & iz & -> & Hx & Hy & Hz).
    apply truncation_unique in Hx, Hy, Hz. now subst.
Qed.

(** Both voxels are visible and fall into the cell (2, -1, 3): two equal
    index triples are written. *)
Lemma C4_witness :
  ((exists out : list record,
       resolve_loop 0 Scene.voxels_two Scene.lut_two Scene.whites
                    Scene.images [] = Ok out /\
       Forall2 record_of
               (visible_voxels Scene.voxels_two
                               [Some (25, 0, 0); Some (25, 0, 0)]) out) /\
   (forall (r g b : Z) (rec : record),
       record_of ((32, -16, 48)%Q, (r, g, b)) rec ->
       rec = (2, -1, 3, r, g, b))) /\
  resolve_loop 0 Scene.voxels_two Scene.lut_two Scene.whites Scene.images []
  = Ok [(2, -1, 3, 25, 0, 0); (2, -1, 3, 25, 0, 0)].
Proof.
  split; [|reflexivity].
  apply (C4_indices_scaled_by_16 Scene.lut_two Scene.whites Scene.images
           Scene.voxels_two [Some (25, 0, 0); Some (25, 0, 0)]).
  - reflexivity.
  - intros n c Hn. destruct n as [|[|n]]; simpl in Hn.
    + injection Hn as <-. reflexivity.
    + injection Hn as <-. reflexivity.
    + destruct n; discriminate.
Defined.

Lemma reconstruct_fair (P : Z -> point3 -> point2) (sched : list nat)
      (voxels : list point3) (masks : list mask_t) (images : list image_t) :
  Pool.fair 4 sched ->
  reconstruct P sched voxels masks images =
  Some (resolve_loop 0 voxels (create_lut P voxels) masks images []).
Proof.
  intros Hf. unfold reconstruct. now rewrite create_lut_parallel_fair.
Qed.

(** The loop over the voxels either resolves every voxel, or stops at the
    first voxel whose resolution raises and passes the exception on. *)
Lemma resolve_loop_outcome (lut : lut_t) (masks : list mask_t)
      (images : list image_t) (voxels : list point3) :
  forall (k : nat) (acc : list record),
    (exists out : list record,
        resolve_loop k voxels lut masks images acc = Ok out /\
        forall n : nat, (n < length voxels)%nat ->
          exists c, check_voxel_visibility (Z.of_nat (k + n)) lut masks images
                    = Ok c) \/
    (exists (n : nat) (e : exn),
        (n < length voxels)%nat /\
        check_voxel_visibility (Z.of_nat (k + n)) lut masks images = Raise e /\
        (forall m : nat, (m < n)%nat ->
           exists c, check_voxel_visibility (Z.of_nat (k + m)) lut masks images
                     = Ok c) /\
        resolve_loop k voxels lut masks images acc = Raise e).
Proof.
  induction voxels as [|[[x y] z] voxels IH]; intros k acc.
  - left. exists acc. split; [reflexivity|]. simpl. intros n Hn. lia.
  - simpl resolve_loop.
    destruct (check_voxel_visibility (Z.of_nat k) lut masks images)
      as [c|e] eqn:Hk.
    + simpl bind.
      set (acc' := match c with
                   | Some (r, g, b) =>
                       acc ++ [(grid_index x, grid_index y, grid_index z,
                                r, g, b)]
                   | None => acc
                   end).
      assert (E : match c with
                  | Some (r, g, b) =>
                      resolve_loop (S k) voxels lut masks images
                        (acc ++ [(grid_index x, grid_index y, grid_index z,
                                  r, g, b)])
                  | None => resolve_loop (S k) voxels lut masks images acc
                  end = resolve_loop (S k) voxels lut masks images acc').
      { subst acc'. destruct c as [[[r g] b]|]; reflexivity. }
      rewrite E. clear E.
      destruct (IH (S k) acc') as [(out & Ho & Hall)|(n & e & Hn & He & Hb & Hr)].
      * left. exists out. split; [exact Ho|].
        intros n Hn. destruct n as [|n].
        -- rewrite Nat.add_0_r. now exists c.
        -- replace (k + S n)%nat with (S k + n)%nat by lia.
           apply Hall. simpl in Hn. lia.
      * right. exists (S n), e. simpl length.
        replace (k + S n)%nat with (S k + n)%nat by lia.
        split; [lia|]. split; [exact He|]. split; [|exact Hr].
        intros m Hm. destruct m as [|m].
        -- rewrite Nat.add_0_r. now exists c.
        -- replace (k + S m)%nat with (S k + m)%nat by lia.
           apply Hb. lia.
    + right. exists 0%nat, e. rewrite Nat.add_0_r. simpl.
      split; [lia|]. split; [exact Hk|]. split; [|reflexivity].
      intros m Hm. lia.
Qed.

(** A table whose first camera has fewer points than the voxel index
    raises only when the resolver is called at that index. *)
Lemma short_table_raises (n : nat) (cam_id : Z) (points_2d : list point2)
      (rest : lut_t) (masks : list mask_t) (images : list image_t) :
  (length points_2d <= n)%nat ->
  check_voxel_visibility (Z.of_nat n) ((cam_id, points_2d) :: rest)
                         masks images = Raise IndexError.
Proof.
  intros H. unfold check_voxel_visibility. simpl.
  rewrite getitem_past_end by lia. reflexivity.
Qed.

(** C7, refuted as stated: the image of camera 1 is larger than its mask
    and the pass completes with both voxels in its output; and a look-up
    table of two points per camera serves a grid of one voxel. *)
Lemma C7_mismatch_not_detected :
  same_shape Scene.white (Np.full 3 5 (10, 0, 0)) = false /\
  reconstruct Scene.drop_z [0; 1; 2; 3]%nat Scene.voxels_inside
              Scene.whites Scene.images_cam1_larger
  = Some (Ok [(0, 0, 3, 25, 0, 0); (0, 0, 6, 25, 0, 0)]) /\
  resolve_loop 0 [(32, -16, 48)%Q] Scene.lut_two Scene.whites Scene.images []
  = Ok [(2, -1, 3, 25, 0, 0)].
Proof. repeat split; reflexivity. Qed.

(** C7, as the driver behaves: nothing is checked before the voxels are
    resolved.  The pass is the loop over the voxels on the table it has
    built, and for any table that loop fails exactly when the resolution
    of some voxel raises, at the first such voxel and after every earlier
    voxel has been resolved; it then yields the exception and no record.
    When no voxel raises it completes with its records. *)
Theorem C7_failure_only_during_resolution (P : Z -> point3 -> point2)
        (sched : list nat) (voxels : list point3) (masks : list mask_t)
        (images : list image_t) :
  Pool.fair 4 sched ->
  reconstruct P sched voxels masks images =
  Some (resolve_loop 0 voxels (create_lut P voxels) masks images []) /\
  forall lut : lut_t,
    (forall e : exn,
        resolve_loop 0 voxels lut masks images [] = Raise e <->
        exists n : nat,
          (n < length voxels)%nat /\
          check_voxel_visibility (Z.of_nat n) lut masks images = Raise e /\
          forall m : nat, (m < n)%nat ->
            exists c, check_voxel_visibility (Z.of_nat m) lut masks images
                      = Ok c) /\
    ((forall n : nat, (n < length voxels)%nat ->
        exists c, check_voxel_visibility (Z.of_nat n) lut masks images
                  = Ok c) <->
     exists out : list record,
       resolve_loop 0 voxels lut masks images [] = Ok out).
Proof.
  intros Hf. split; [now apply reconstruct_fair|]. intros lut.
  pose proof (resolve_loop_outcome lut masks images voxels 0 []) as Ho.
  cbn [Nat.add] in Ho.
  split.
  - intros e. split.
    + intros Hr.
      destruct Ho as [(out & Hout & _)|(n & e' & Hn & He & Hb & Hr')];
        [congruence|].
      exists n. rewrite Hr in Hr'. injection Hr' as <-. auto.
    + intros (n & Hn & He & Hb).
      destruct Ho as [(out & _ & Hall)|(n' & e' & Hn' & He' & Hb' & Hr')].
      * destruct (Hall n Hn) as [c Hc]. congruence.
      * destruct (Nat.lt_trichotomy n n') as [Hlt|[<-|Hgt]].
        -- destruct (Hb' n Hlt) as [c Hc]. congruence.
        -- rewrite Hr'. congruence.
        -- destruct (Hb n' Hgt) as [c Hc]. congruence.
  - split.
    + intros Hall.
      destruct Ho as [(out & Hout & _)|(n & e & Hn & He & _ & _)].
      * now exists out.
      * destruct (Hall n Hn) as [c Hc]. congruence.
    + intros [out Hout].
      destruct Ho as [(out' & _ & Hall)|(n & e & _ & _ & _ & Hr)];
        [exact Hall|congruence].
Qed.

(** The image of camera 1 is smaller than its mask: the first voxel is
    resolved, the second one reads outside the image, and the pass ends
    with that [IndexError]. *)
Lemma C7_witness :
  reconstruct Scene.drop_z [0; 1; 2; 3]%nat Scene.voxels_inside
              Scene.whites Scene.images_cam1_smaller
  = Some (Raise IndexError) /\
  exists n : nat,
    (n < 2)%nat /\
    check_voxel_visibility (Z.of_nat n)
      (create_lut Scene.drop_z Scene.voxels_inside)
      Scene.whites Scene.images_cam1_smaller = Raise IndexError /\
    forall m : nat, (m < n)%nat ->
      exists c, check_voxel_visibility (Z.of_nat m)
                  (create_lut Scene.drop_z Scene.voxels_inside)
                  Scene.whites Scene.images_cam1_smaller = Ok c.
Proof.
  destruct (C7_failure_only_during_resolution Scene.drop_z [0; 1; 2; 3]%nat
              Scene.voxels_inside Scene.whites Scene.images_cam1_smaller
              (Permutation_refl _)) as [Hrun Hloop].
  split; [reflexivity|].
  apply (Hloop (create_lut Scene.drop_z Scene.voxels_inside)).
  reflexivity.
Defined.

(** ** Masks without foreground *)

Lemma visibility_loop_all_background (i : Z) (masks : list mask_t)
      (images : list image_t) (lut : lut_t) :
  Forall (fun item : Z * list point2 =>
            exists (qx qy : Q) (mask : mask_t),
              Py.getitem (snd item) i = Ok (Py.Finite qx, Py.Finite qy) /\
              Py.getitem masks (fst item - 1) = Ok mask /\
              all_background mask) lut ->
  visibility_loop i lut masks images [] = Ok None.
Proof.
  induction 1 as [|[cam_id points_2d] lut (qx & qy & mask & Hp & Hm & Hbg) _ IH];
    [reflexivity|].
  simpl in Hp, Hm. simpl visibility_loop. rewrite Hp. simpl.
  rewrite (in_image_in_bounds _ _ _ _ _ Hm). simpl.
  destruct (in_bounds mask (Py.Qtrunc qx) (Py.Qtrunc qy)) eqn:Hb;
    [|exact IH].
  rewrite Hm. simpl.
  destruct (in_bounds_range _ _ _ Hb) as [Hy Hx].
  rewrite (getitem2_in_range mask) by assumption. simpl.
  destruct (Z.eqb_spec (Np.elem mask (Z.to_nat (Py.Qtrunc qy))
                                (Z.to_nat (Py.Qtrunc qx))) 255) as [E|_];
    [|reflexivity].
  exfalso. apply (Hbg (Z.to_nat (Py.Qtrunc qy)) (Z.to_nat (Py.Qtrunc qx)));
    [lia|lia|exact E].
Qed.

Lemma check_all_background (P : Z -> point3 -> point2)
      (voxels : list point3) (masks : list mask_t) (images : list image_t)
      (n : nat) :
  finite_projection P -> length masks = 4%nat ->
  Forall all_background masks -> (n < length voxels)%nat ->
  check_voxel_visibility (Z.of_nat n) (create_lut P voxels) masks images
  = Ok None.
Proof.
  intros Hfin Hlen Hbg Hn.
  destruct masks as [|m1 [|m2 [|m3 [|m4 [|? ?]]]]]; try discriminate.
  destruct (nth_error voxels n) as [v|] eqn:Hv;
    [|apply nth_error_None in Hv; lia].
  assert (Hpt : forall c, exists qx qy,
             Py.getitem (project_to_2d P voxels c) (Z.of_nat n)
             = Ok (Py.Finite qx, Py.Finite qy)).
  { intros c. destruct (Hfin c v) as (qx & qy & E). exists qx, qy.
    apply getitem_of_nat. unfold project_to_2d.
    now rewrite nth_error_map, Hv, <- E. }
  inversion Hbg as [|? ? H1 Hbg1]; subst.
  inversion Hbg1 as [|? ? H2 Hbg2]; subst.
  inversion Hbg2 as [|? ? H3 Hbg3]; subst.
  inversion Hbg3 as [|? ? H4 _]; subst.
  unfold check_voxel_visibility. rewrite create_lut_items.
  apply visibility_loop_all_background.
  repeat constructor; simpl fst; simpl snd.
  - destruct (Hpt 1) as (qx & qy & E). now exists qx, qy, m1.
  - destruct (Hpt 2) as (qx & qy & E). now exists qx, qy, m2.
  - destruct (Hpt 3) as (qx & qy & E). now exists qx, qy, m3.
  - destruct (Hpt 4) as (qx & qy & E). now exists qx, qy, m4.
Qed.

Lemma resolve_loop_none (lut : lut_t) (masks : list mask_t)
      (images : list image_t) (voxels : list point3) :
  forall (k : nat) (acc : list record),
    (forall n : nat, (n < length voxels)%nat ->
       check_voxel_visibility (Z.of_nat (k + n)) lut masks images = Ok None) ->
    resolve_loop k voxels lut masks images acc = Ok acc.
Proof.
  induction voxels as [|[[x y] z] voxels IH]; intros k acc Hall;
    [reflexivity|].
  simpl resolve_loop.
  pose proof (Hall 0%nat ltac:(simpl; lia)) as H0.
  rewrite Nat.add_0_r in H0. rewrite H0. simpl.
  apply IH. intros n Hn.
  replace (S k + n)%nat with (k + S n)%nat by lia.
  apply Hall. simpl. lia.
Qed.

Lemma reconstruct_all_background (P : Z -> point3 -> point2)
      (sched : list nat) (voxels : list point3) (masks : list mask_t)
      (images : list image_t) :
  Pool.fair 4 sched -> finite_projection P -> length masks = 4%nat ->
  Forall all_background masks ->
  reconstruct P sched voxels masks images = Some (Ok []).
Proof.
  intros Hf Hfin Hlen Hbg. rewrite (reconstruct_fair _ _ _ _ _ Hf).
  f_equal. apply resolve_loop_none. intros n Hn.
  now apply check_all_background.
Qed.

(** C8: when the mask of every camera is entirely background, the pass
    completes without an exception and its list of records is empty. *)
Theorem C8_all_background_gives_empty_output (P : Z -> point3 -> point2)
        (sched : list nat) (voxels : list point3) (masks : list mask_t)
        (images : list image_t) :
  Pool.fair 4 sched -> finite_projection P -> length masks = 4%nat ->
  Forall all_background masks ->
  reconstruct P sched voxels masks images = Some (Ok []) /\
  check_visibility_and_reconstruct P sched masks images = Some (Ok []).
Proof.
  intros Hf Hfin Hlen Hbg. split.
  - now apply reconstruct_all_background.
  - unfold check_visibility_and_reconstruct.
    now apply reconstruct_all_background.
Qed.

Lemma C8_witness :
  reconstruct Scene.drop_z [0; 1; 2; 3]%nat Scene.voxels_inside
              Scene.blacks Scene.images = Some (Ok []) /\
  check_visibility_and_reconstruct Scene.drop_z [0; 1; 2; 3]%nat
                                   Scene.blacks Scene.images = Some (Ok []).
Proof.
  apply (C8_all_background_gives_empty_output Scene.drop_z [0; 1; 2; 3]%nat
           Scene.voxels_inside Scene.blacks Scene.images).
  - apply Permutation_refl.
  - intros cam_id [[x y] z]. exists x, y. reflexivity.
  - reflexivity.
  - repeat constructor; intros r c _ _; discriminate.
Defined.

(** ** Schedules *)

(** C9: the outcome of a pass does not depend on the order in which the
    workers of the pool finish: two runs on the same cameras, masks and
    images end with the same outcome, hence with the same records. *)
Theorem C9_outcome_independent_of_schedule (P : Z -> point3 -> point2)
        (sched1 sched2 : list nat) (masks : list mask_t)
        (images : list image_t) :
  Pool.fair 4 sched1 -> Pool.fair 4 sched2 ->
  (forall voxels : list point3,
      exists outcome : result (list record),
        reconstruct P sched1 voxels masks images = Some outcome /\
        reconstruct P sched2 voxels masks images = Some outcome) /\
  (exists outcome : result (list record),
      check_visibility_and_reconstruct P sched1 masks images = Some outcome /\
      check_visibility_and_reconstruct P sched2 masks images = Some outcome) /\
  (forall out1 out2 : list record,
      check_visibility_and_reconstruct P sched1 masks images = Some (Ok out1) ->
      check_visibility_and_reconstruct P sched2 masks images = Some (Ok out2) ->
      Permutation out1 out2).
Proof.
  intros Hf1 Hf2.
  assert (Hall : forall voxels,
             exists outcome,
               reconstruct P sched1 voxels masks images = Some outcome /\
               reconstruct P sched2 voxels masks images = Some outcome).
  { intros voxels.
    exists (resolve_loop 0 voxels (create_lut P voxels) masks images []).
    split; now apply reconstruct_fair. }
  split; [exact Hall|]. split; [apply Hall|].
  unfold check_visibility_and_reconstruct. intros out1 out2 H1 H2.
  destruct (Hall voxel_grid) as (outcome & E1 & E2).
  rewrite E1 in H1. rewrite E2 in H2.
  injection H1 as ->. injection H2 as ->. apply Permutation_refl.
Qed.

Lemma C9_witness :
  (forall voxels : list point3,
      exists outcome : result (list record),
        reconstruct Scene.drop_z [2; 0; 3; 1]%nat voxels Scene.whites
                    Scene.images = Some outcome /\
        reconstruct Scene.drop_z [0; 1; 2; 3]%nat voxels Scene.whites
                    Scene.images = Some outcome) /\
  (exists outcome : result (list record),
      check_visibility_and_reconstruct Scene.drop_z [2; 0; 3; 1]%nat
                                       Scene.whites Scene.images
      = Some outcome /\
      check_visibility_and_reconstruct Scene.drop_z [0; 1; 2; 3]%nat
                                       Scene.whites Scene.images
      = Some outcome) /\
  (forall out1 out2 : list record,
      check_visibility_and_reconstruct Scene.drop_z [2; 0; 3; 1]%nat
                                       Scene.whites Scene.images
      = Some (Ok out1) ->
      check_visibility_and_reconstruct Scene.drop_z [0; 1; 2; 3]%nat
                                       Scene.whites Scene.images
      = Some (Ok out2) ->
      Permutation out1 out2).
Proof.
  apply (C9_outcome_independent_of_schedule Scene.drop_z [2; 0; 3; 1]%nat
           [0; 1; 2; 3]%nat Scene.whites Scene.images).
  - exact fair_2031.
  - apply Permutation_refl.
Defined.

(** ** The voxel grid *)

Section Grid.

Variables xs ys zs : list Q.

Lemma grid_size :
  Np.size (grid_array xs ys zs) = (length zs * length xs * length ys * 3)%nat.
Proof. reflexivity. Qed.

Lemma flat_grid (n c : nat) :
  (c < 3)%nat ->
  Np.flat (grid_array xs ys zs) (n * 3 + c) =
  match c with
  | O => nth ((n / length ys) mod length xs) xs 0%Q
  | S O => nth (n mod length ys) ys 0%Q
  | _ => nth (n / (length ys * length xs)) zs 0%Q
  end.
Proof.
  intros Hc.
  assert (E0 : ((n * 3 + c) mod 3 = c)%nat).
  { rewrite Nat.add_comm, Nat.Div0.mod_add. now apply Nat.mod_small. }
  assert (E1 : ((n * 3 + c) / 3 = n)%nat).
  { rewrite Nat.div_add_l by discriminate.
    rewrite (Nat.div_small c 3 Hc). apply Nat.add_0_r. }
  assert (E2 : ((n * 3 + c) / (3 * length ys) = n / length ys)%nat).
  { now rewrite <- Nat.Div0.div_div, E1. }
  assert (E3 : ((n * 3 + c) / (3 * length ys * length xs)
                = n / (length ys * length xs))%nat).
  { now rewrite <- !Nat.Div0.div_div, E1, Nat.Div0.div_div. }
  unfold grid_array, Np.flat, Np.T, Np.meshgrid. cbn [Np.dims Np.elem4].
  rewrite E0, E1, E2, E3.
  destruct c as [|[|[|c]]]; [reflexivity|reflexivity|reflexivity|lia].
Qed.

Lemma make_grid_length :
  length (make_grid xs ys zs) = (length zs * length xs * length ys)%nat.
Proof.
  unfold make_grid, Np.reshape_rows3.
  rewrite length_map, length_seq, grid_size.
  apply Nat.div_mul. discriminate.
Qed.

(** Voxel [n] of the grid. *)
Lemma make_grid_nth (n : nat) :
  (n < length zs * length xs * length ys)%nat ->
  nth_error (make_grid xs ys zs) n =
  Some (nth ((n / length ys) mod length xs) xs 0%Q,
        nth (n mod length ys) ys 0%Q,
        nth (n / (length ys * length xs)) zs 0%Q).
Proof.
  intros Hn. unfold make_grid, Np.reshape_rows3.
  rewrite nth_error_map, nth_error_seq, grid_size.
  rewrite Nat.div_mul by discriminate.
  apply Nat.ltb_lt in Hn. rewrite Hn. cbn [option_map Nat.add].
  replace (n * 3)%nat with (n * 3 + 0)%nat at 1 by apply Nat.add_0_r.
  rewrite !flat_grid by lia. reflexivity.
Qed.

(** The voxel built from the samples [j], [i] and [k] of the three axes
    sits at index [(k * len x + j) * len y + i]: the z axis is the
    outermost loop of the enumeration and the y axis the innermost. *)
Lemma make_grid_at (j i k : nat) :
  (j < length xs)%nat -> (i < length ys)%nat -> (k < length zs)%nat ->
  nth_error (make_grid xs ys zs) ((k * length xs + j) * length ys + i) =
  Some (nth j xs 0%Q, nth i ys 0%Q, nth k zs 0%Q).
Proof.
  intros Hj Hi Hk.
  set (n := ((k * length xs + j) * length ys + i)%nat).
  assert (Hn : (n < length zs * length xs * length ys)%nat).
  { subst n.
    assert (H1 : ((k + 1) * length xs <= length zs * length xs)%nat)
      by (apply Nat.mul_le_mono_r; lia).
    assert (H2 : ((k * length xs + j + 1) * length ys
                  <= length zs * length xs * length ys)%nat)
      by (apply Nat.mul_le_mono_r; lia).
    lia. }
  assert (E1 : (n mod length ys = i)%nat).
  { subst n. rewrite Nat.add_comm, Nat.Div0.mod_add.
    now apply Nat.mod_small. }
  assert (E2 : (n / length ys = k * length xs + j)%nat).
  { subst n. rewrite Nat.div_add_l by lia.
    rewrite (Nat.div_small i) by assumption. apply Nat.add_0_r. }
  assert (E3 : ((n / length ys) mod length xs = j)%nat).
  { rewrite E2, Nat.add_comm, Nat.Div0.mod_add. now apply Nat.mod_small. }
  assert (E4 : (n / (length ys * length xs) = k)%nat).
  { rewrite <- Nat.Div0.div_div, E2. rewrite Nat.div_add_l by lia.
    rewrite (Nat.div_small j) by assumption. apply Nat.add_0_r. }
  rewrite (make_grid_nth n Hn), E1, E3, E4. reflexivity.
Qed.

End Grid.

Lemma small_spec (tol q : Q) :
  small tol q = true -> (- tol <= q /\ q <= tol)%Q.
Proof.
  unfold small. rewrite andb_true_iff, !Qle_bool_iff. tauto.
Qed.

Lemma evenly_spaced_within_nth (tol start step : Q) (samples : list Q)
      (i : nat) :
  evenly_spaced_within tol start step samples = true ->
  (i < length samples)%nat ->
  (- tol <= nth i samples 0 - (start + inject_Z (Z.of_nat i) * step) /\
   nth i samples 0 - (start + inject_Z (Z.of_nat i) * step) <= tol)%Q.
Proof.
  unfold evenly_spaced_within. rewrite forallb_forall. intros H Hi.
  apply small_spec. apply H. apply in_seq. lia.
Qed.

Lemma gaps_within_nth (tol step : Q) (samples : list Q) (i : nat) :
  gaps_within tol step samples = true -> (S i < length samples)%nat ->
  (- tol <= nth (S i) samples 0 - nth i samples 0 - step /\
   nth (S i) samples 0 - nth i samples 0 - step <= tol)%Q.
Proof.
  unfold gaps_within. rewrite forallb_forall. intros H Hi.
  apply small_spec. apply H. apply in_seq. lia.
Qed.

(** [np.linspace] returns [num] samples, the last of which is [stop]
    itself when there are at least two. *)
Lemma linspace_shape (start stop : Z) (num : nat) :
  length (Np.linspace start stop num) = num /\
  ((1 < num)%nat ->
   forall d : spec_float,
     nth (num - 1) (Np.linspace start stop num) d = F64.of_Z stop).
Proof.
  unfold Np.linspace.
  set (y := map (fun v => F64.add v (F64.of_Z start)) _).
  assert (Hy : length y = num).
  { subst y. rewrite length_map.
    destruct (0 <? Z.of_nat num - 1); [destruct (SFeqb _ _)|];
      now rewrite !length_map, length_seq. }
  clearbody y.
  assert (Hr : (1 < num)%nat -> length (removelast y) = (num - 1)%nat).
  { intros Hn. destruct y as [|v y]; [simpl in Hy; lia|].
    revert v Hy. clear Hn. revert num.
    induction y as [|w y IH]; intros num v Hy; simpl in *; [lia|].
    destruct num as [|num]; [discriminate|].
    rewrite (IH num w) by lia. lia. }
  destruct (Nat.ltb_spec 1 num) as [Hn|Hn]; split.
  - rewrite length_app, (Hr Hn). simpl. lia.
  - intros _ d. rewrite app_nth2 by (rewrite (Hr Hn); lia).
    rewrite (Hr Hn), Nat.sub_diag. reflexivity.
  - exact Hy.
  - intros H. lia.
Qed.

Lemma axes_length :
  length x_range = 200%nat /\ length y_range = 200%nat /\
  length z_range = 200%nat.
Proof. repeat split; vm_compute; reflexivity. Qed.

Lemma axes_finite :
  forallb F64.is_finite x_floats = true /\
  forallb F64.is_finite y_floats = true /\
  forallb F64.is_finite z_floats = true.
Proof. repeat split; vm_compute; reflexivity. Qed.

Lemma axes_evenly_spaced :
  evenly_spaced_within (1 # 2 ^ 42) (-1024) (2048 # 199) x_range = true /\
  evenly_spaced_within (1 # 2 ^ 42) (-1024) (2048 # 199) y_range = true /\
  evenly_spaced_within (1 # 2 ^ 42) 0 (2048 # 199) z_range = true.
Proof. repeat split; vm_compute; reflexivity. Qed.

Lemma axes_gaps :
  gaps_within (1 # 2 ^ 42) (2048 # 199) x_range = true /\
  gaps_within (1 # 2 ^ 42) (2048 # 199) y_range = true /\
  gaps_within (1 # 2 ^ 42) (2048 # 199) z_range = true.
Proof. repeat split; vm_compute; reflexivity. Qed.

(** C5: the grid is a constant of the program.  It has 200 * 200 * 200 =
    8,000,000 points.  Each axis is an array of 200 finite float64
    samples that runs from -1024 to 1024 for x and y and from 0 to 2048
    for z, both ends exact, and that is evenly spaced as float64 samples
    are: every sample lies within 2^-42 of [start + i * 2048/199] and
    every gap between neighbours within 2^-42 of [2048/199].  The grid is
    the Cartesian product of the axes in a fixed order, the samples [j],
    [i], [k] of x, y, z giving the voxel of index
    [(k * 200 + j) * 200 + i]. *)
Theorem C5_voxel_grid :
  Z.of_nat (length voxel_grid) = 8000000 /\
  (length x_range = 200 /\ length y_range = 200 /\
   length z_range = 200)%nat /\
  (forallb F64.is_finite x_floats = true /\
   forallb F64.is_finite y_floats = true /\
   forallb F64.is_finite z_floats = true) /\
  (forall i : nat, (i < 200)%nat ->
     let ideal := (inject_Z (Z.of_nat i) * (2048 # 199))%Q in
     (- (1 # 2 ^ 42) <= nth i x_range 0 - (-1024 + ideal) /\
      nth i x_range 0 - (-1024 + ideal) <= 1 # 2 ^ 42)%Q /\
     (- (1 # 2 ^ 42) <= nth i y_range 0 - (-1024 + ideal) /\
      nth i y_range 0 - (-1024 + ideal) <= 1 # 2 ^ 42)%Q /\
     (- (1 # 2 ^ 42) <= nth i z_range 0 - (0 + ideal) /\
      nth i z_range 0 - (0 + ideal) <= 1 # 2 ^ 42)%Q) /\
  (forall i : nat, (S i < 200)%nat ->
     (- (1 # 2 ^ 42) <= nth (S i) x_range 0 - nth i x_range 0 - (2048 # 199) /\
      nth (S i) x_range 0 - nth i x_range 0 - (2048 # 199) <= 1 # 2 ^ 42)%Q /\
     (- (1 # 2 ^ 42) <= nth (S i) y_range 0 - nth i y_range 0 - (2048 # 199) /\
      nth (S i) y_range 0 - nth i y_range 0 - (2048 # 199) <= 1 # 2 ^ 42)%Q /\
     (- (1 # 2 ^ 42) <= nth (S i) z_range 0 - nth i z_range 0 - (2048 # 199) /\
      nth (S i) z_range 0 - nth i z_range 0 - (2048 # 199) <= 1 # 2 ^ 42)%Q) /\
  (nth 0 x_range 0 == -1024 /\ nth 199 x_range 0 == 1024 /\
   nth 0 y_range 0 == -1024 /\ nth 199 y_range 0 == 1024 /\
   nth 0 z_range 0 == 0 /\ nth 199 z_range 0 == 2048)%Q /\
  (forall j i k : nat,
     (j < 200)%nat -> (i < 200)%nat -> (k < 200)%nat ->
     nth_error voxel_grid ((k * 200 + j) * 200 + i) =
     Some (nth j x_range 0, nth i y_range 0, nth k z_range 0)%Q).
Proof.
  destruct axes_length as (Lx & Ly & Lz).
  destruct axes_evenly_spaced as (Ex & Ey & Ez).
  destruct axes_gaps as (Gx & Gy & Gz).
  split; [|split; [|split; [|split; [|split; [|split]]]]].
  - unfold voxel_grid. rewrite make_grid_length, Lx, Ly, Lz.
    rewrite !Nat2Z.inj_mul. reflexivity.
  - auto.
  - exact axes_finite.
  - intros i Hi ideal. subst ideal.
    split; [|split]; apply evenly_spaced_within_nth;
      try assumption; rewrite ?Lx, ?Ly, ?Lz; exact Hi.
  - intros i Hi.
    split; [|split]; apply gaps_within_nth;
      try assumption; rewrite ?Lx, ?Ly, ?Lz; exact Hi.
  - repeat split; vm_compute; reflexivity.
  - intros j i k Hj Hi Hk. unfold voxel_grid.
    pose proof (make_grid_at x_range y_range z_range j i k) as H.
    rewrite Lx, Ly, Lz in H. now apply H.
Qed.

(** * Further properties *)

(** ** The pool and the two builders *)

Lemma future_result_spec {A : Type} (sched : list nat)
      (tasks : list (unit -> A)) (t : nat) :
  Pool.future_result (Pool.run sched tasks) t =
  match nth_error tasks t with
  | Some task => if existsb (Nat.eqb t) sched then Some (task tt) else None
  | None => None
  end.
Proof.
  unfold Pool.future_result, Pool.run.
  induction sched as [|s sched IH]; simpl flat_map; simpl existsb.
  - simpl. now destruct (nth_error tasks t).
  - destruct (Nat.eqb_spec t s) as [->|Hne].
    + destruct (nth_error tasks s) as [task|] eqn:Es.
      * simpl. now rewrite Nat.eqb_refl.
      * simpl. rewrite IH. reflexivity.
    + destruct (nth_error tasks s) as [task'|]; simpl.
      * assert (E : (s =? t)%nat = false) by (apply Nat.eqb_neq; congruence).
        rewrite E. exact IH.
      * exact IH.
Qed.

Lemma create_lut_parallel_spec (P : Z -> point3 -> point2)
      (sched : list nat) (voxels : list point3) :
  create_lut_parallel P sched voxels =
  if completes 4 sched then Some (create_lut P voxels) else None.
Proof.
  unfold create_lut_parallel, completes.
  change (Py.range 1 5) with [1; 2; 3; 4].
  cbn [map length seq collect_futures forallb].
  rewrite !future_result_spec. cbn [nth_error].
  destruct (existsb (Nat.eqb 0) sched); [|reflexivity].
  destruct (existsb (Nat.eqb 1) sched); [|reflexivity].
  destruct (existsb (Nat.eqb 2) sched); [|reflexivity].
  destruct (existsb (Nat.eqb 3) sched); reflexivity.
Qed.

(** X1: [create_lut_parallel] returns the table of the sequential
    [create_lut] whenever the pool completes its four tasks, in any order,
    and never returns when one of them does not complete. *)
Theorem X1_parallel_lut_is_sequential_lut (P : Z -> point3 -> point2)
        (sched : list nat) (voxels : list point3) :
  create_lut_parallel P sched voxels =
  if completes 4 sched then Some (create_lut P voxels) else None.
Proof. apply create_lut_parallel_spec. Qed.

(** ** Background subtraction *)

Lemma background_subtraction_items (S : Z -> mask_t * image_t) :
  background_subtraction S =
  ([fst (S 1); fst (S 2); fst (S 3); fst (S 4)],
   [snd (S 1); snd (S 2); snd (S 3); snd (S 4)]).
Proof.
  unfold background_subtraction. change (Py.range 1 5) with [1; 2; 3; 4].
  cbn [fold_left].
  destruct (S 1), (S 2), (S 3), (S 4). reflexivity.
Qed.

Lemma background_subtraction_parallel_spec (S : Z -> mask_t * image_t)
      (sched : list nat) :
  background_subtraction_parallel S sched =
  if completes 4 sched then Some (background_subtraction S) else None.
Proof.
  rewrite background_subtraction_items.
  unfold background_subtraction_parallel, completes.
  change (Py.range 1 5) with [1; 2; 3; 4].
  cbn [map length seq future_results forallb].
  rewrite !future_result_spec. cbn [nth_error].
  destruct (existsb (Nat.eqb 0) sched); [|reflexivity].
  destruct (existsb (Nat.eqb 1) sched); [|reflexivity].
  destruct (existsb (Nat.eqb 2) sched); [|reflexivity].
  destruct (existsb (Nat.eqb 3) sched); [|reflexivity].
  cbn [andb split].
  destruct (S 1), (S 2), (S 3), (S 4). reflexivity.
Qed.

(** X2: [background_subtraction_parallel] returns the masks and the
    images of the sequential [background_subtraction], in the same
    order, whenever the pool completes its four tasks, whatever the order
    in which they finish; it never returns otherwise. *)
Theorem X2_parallel_subtraction_is_sequential (S : Z -> mask_t * image_t)
        (sched : list nat) :
  background_subtraction_parallel S sched =
  if completes 4 sched then Some (background_subtraction S) else None.
Proof. apply background_subtraction_parallel_spec. Qed.

(** X3: in the lists returned by the background subtraction, camera
    [cam_id] sits at position [cam_id - 1], the position at which
    [check_voxel_visibility] looks its mask and its image up; camera ids
    outside 1 .. 4 but 0, -1, -2, -3 have no entry. *)
Theorem X3_camera_position (S : Z -> mask_t * image_t) (sched : list nat)
        (cam_id : Z) :
  completes 4 sched = true ->
  exists (masks : list mask_t) (images : list image_t),
    background_subtraction_parallel S sched = Some (masks, images) /\
    (1 <= cam_id <= 4 ->
     Py.getitem masks (cam_id - 1) = Ok (fst (S cam_id)) /\
     Py.getitem images (cam_id - 1) = Ok (snd (S cam_id))) /\
    (cam_id < -3 \/ 4 < cam_id ->
     Py.getitem masks (cam_id - 1) = Raise IndexError /\
     Py.getitem images (cam_id - 1) = Raise IndexError).
Proof.
  intros Hc. rewrite background_subtraction_parallel_spec, Hc.
  rewrite background_subtraction_items.
  eexists. eexists. split; [reflexivity|]. split.
  - intros H.
    assert (E : cam_id = 1 \/ cam_id = 2 \/ cam_id = 3 \/ cam_id = 4) by lia.
    destruct E as [-> | [-> | [-> | ->]]]; split; reflexivity.
  - intros H. unfold Py.getitem, Py.index. cbn [length].
    destruct (Z.ltb_spec (cam_id - 1) 0).
    + destruct (Z.leb_spec 0 (cam_id - 1 + Z.of_nat 4)); [lia|].
      split; reflexivity.
    + destruct (Z.ltb_spec (cam_id - 1) (Z.of_nat 4)); [lia|].
      rewrite andb_false_r. split; reflexivity.
Qed.

Lemma completes_2031 : completes 4 [2; 0; 3; 1]%nat = true.
Proof. reflexivity. Qed.

Lemma X3_witness :
  exists (masks : list mask_t) (images : list image_t),
    background_subtraction_parallel Scene2.subtract [2; 0; 3; 1]%nat
    = Some (masks, images) /\
    (1 <= 3 <= 4 ->
     Py.getitem masks (3 - 1) = Ok (fst (Scene2.subtract 3)) /\
     Py.getitem images (3 - 1) = Ok (snd (Scene2.subtract 3))) /\
    (3 < -3 \/ 4 < 3 ->
     Py.getitem masks (3 - 1) = Raise IndexError /\
     Py.getitem images (3 - 1) = Raise IndexError).
Proof.
  exact (X3_camera_position Scene2.subtract [2; 0; 3; 1]%nat 3
           completes_2031).
Defined.

(** ** More on the resolver *)

(** A run of cameras none of which sees background hands its colours on
    to the rest of the table. *)
Lemma visibility_loop_prefix (i : Z) (masks : list mask_t)
      (images : list image_t) (prefix rest : lut_t) (views : list view) :
  forall colors : list Np.color,
    map (camera_view i masks images) prefix = map Some views ->
    ~ In Background views ->
    visibility_loop i (prefix ++ rest) masks images colors =
    visibility_loop i rest masks images (colors ++ foreground_colors views).
Proof.
  revert views.
  induction prefix as [|item prefix IH]; intros [|v views] colors Hv Hbg;
    try discriminate.
  - simpl. now rewrite app_nil_r.
  - simpl map in Hv. injection Hv as Hv1 Hv2.
    rewrite <- app_comm_cons.
    rewrite (visibility_loop_step _ _ _ _ _ _ _ Hv1).
    destruct v.
    + simpl foreground_colors. apply (IH views); [exact Hv2|].
      intros H. apply Hbg. now right.
    + exfalso. apply Hbg. now left.
    + rewrite (IH views (colors ++ [c]) Hv2).
      * simpl foreground_colors. now rewrite <- app_assoc.
      * intros H. apply Hbg. now right.
Qed.

(** X4: the first camera that sees the voxel on a background pixel
    settles the answer [None]: the cameras after it in the table are not
    looked at, whatever their entries, be they too short for the voxel
    index or not finite. *)
Theorem X4_background_camera_ends_the_loop (i : Z) (masks : list mask_t)
        (images : list image_t) (prefix rest : lut_t)
        (item : Z * list point2) (views : list view) :
  map (camera_view i masks images) prefix = map Some views ->
  ~ In Background views ->
  camera_view i masks images item = Some Background ->
  check_voxel_visibility i (prefix ++ item :: rest) masks images = Ok None.
Proof.
  intros Hv Hbg Hitem. unfold check_voxel_visibility.
  rewrite (visibility_loop_prefix _ _ _ _ _ _ _ Hv Hbg).
  now rewrite (visibility_loop_step _ _ _ _ _ _ _ Hitem).
Qed.

Lemma X4_witness :
  check_voxel_visibility 0 Scene2.lut_rejected_by_cam2
                         Scene2.masks_cam2_black Scene.images = Ok None.
Proof.
  apply (X4_background_camera_ends_the_loop 0 Scene2.masks_cam2_black
           Scene.images [(1, [Scene.finite2 1.5 0.5])]
           [(3, []); (4, [(Py.NaN, Py.NaN)])]
           (2, [Scene.finite2 2.25 1.75]) [Foreground (10, 0, 0)]).
  - reflexivity.
  - simpl. intros [H|[]]. discriminate.
  - reflexivity.
Defined.

Lemma channel_sum_perm (f : Np.color -> Z) (cs cs' : list Np.color) :
  Permutation cs cs' -> channel_sum f cs = channel_sum f cs'.
Proof.
  unfold channel_sum. induction 1; simpl; lia.
Qed.

Lemma int_mean_perm (cs cs' : list Np.color) :
  Permutation cs cs' -> int_mean cs = int_mean cs'.
Proof.
  intros Hp. unfold int_mean.
  rewrite (Permutation_length Hp).
  now rewrite !(channel_sum_perm _ _ _ Hp).
Qed.

Lemma foreground_colors_perm (views views' : list view) :
  Permutation views views' ->
  Permutation (foreground_colors views) (foreground_colors views').
Proof.
  unfold foreground_colors. induction 1 as [|v l l' _ IH|v w l|l l' l'' _ IH1 _ IH2].
  - constructor.
  - simpl. now apply Permutation_app_head.
  - simpl. rewrite !app_assoc. apply Permutation_app_tail.
    apply Permutation_app_comm.
  - now transitivity (flat_map
                        (fun v => match v with Foreground c => [c] | _ => [] end)
                        l').
Qed.

Lemma existsb_perm {A : Type} (f : A -> bool) (l l' : list A) :
  Permutation l l' -> existsb f l = existsb f l'.
Proof.
  induction 1; simpl; try congruence.
  - now destruct (f y), (f x).
Qed.

(** The result of the loop started without colours, by the views. *)
Lemma check_by_views (i : Z) (masks : list mask_t) (images : list image_t)
      (lut : lut_t) (views : list view) :
  map (camera_view i masks images) lut = map Some views ->
  check_voxel_visibility i lut masks images =
  if existsb is_background views then Ok None
  else match foreground_colors views with
       | [] => Ok None
       | _ :: _ => Ok (Some (int_mean (foreground_colors views)))
       end.
Proof.
  intros Hv. unfold check_voxel_visibility.
  rewrite (visibility_loop_views _ _ _ _ _ [] Hv). rewrite app_nil_l.
  destruct (existsb is_background views); [reflexivity|].
  destruct (foreground_colors views) eqn:E; [reflexivity|].
  now rewrite astype_int_mean.
Qed.

(** X5: the answer does not depend on the order of the cameras in the
    table: when every camera has a defined view of the voxel, any
    reordering of the table gives the same visibility and the same
    colour. *)
Theorem X5_camera_order_irrelevant (i : Z) (masks : list mask_t)
        (images : list image_t) (lut lut' : lut_t) (views : list view) :
  map (camera_view i masks images) lut = map Some views ->
  Permutation lut lut' ->
  check_voxel_visibility i lut' masks images =
  check_voxel_visibility i lut masks images.
Proof.
  intros Hv Hp.
  pose proof (Permutation_map (camera_view i masks images) Hp) as Hm.
  rewrite Hv in Hm. apply Permutation_sym in Hm.
  destruct (Permutation_map_inv _ _ Hm) as (views' & Hv' & Hpv).
  rewrite (check_by_views _ _ _ _ _ Hv), (check_by_views _ _ _ _ _ Hv').
  rewrite <- (existsb_perm is_background _ _ Hpv).
  destruct (existsb is_background views); [reflexivity|].
  pose proof (foreground_colors_perm _ _ Hpv) as Hc.
  destruct (foreground_colors views) as [|c cs] eqn:E.
  - apply Permutation_nil in Hc. now rewrite Hc.
  - destruct (foreground_colors views') as [|c' cs'] eqn:E'.
    + apply Permutation_sym, Permutation_nil in Hc. discriminate.
    + now rewrite (int_mean_perm _ _ Hc).
Qed.

Lemma lut_inside_shuffled_perm :
  Permutation Scene.lut_inside Scene2.lut_inside_shuffled.
Proof.
  unfold Scene.lut_inside, Scene2.lut_inside_shuffled.
  eapply perm_trans; [apply perm_skip, perm_swap|].
  eapply perm_trans; [apply perm_swap|].
  do 2 apply perm_skip. apply perm_swap.
Qed.

Lemma X5_witness :
  check_voxel_visibility 0 Scene2.lut_inside_shuffled Scene.whites
                         Scene.images =
  check_voxel_visibility 0 Scene.lut_inside Scene.whites Scene.images.
Proof.
  exact (X5_camera_order_irrelevant 0 Scene.whites Scene.images
           Scene.lut_inside Scene2.lut_inside_shuffled
           [Foreground (10, 0, 0); Foreground (20, 0, 0);
            Foreground (30, 0, 0); Foreground (40, 0, 0)]
           eq_refl lut_inside_shuffled_perm).
Defined.

(** ** The range of the colours *)

Lemma index_bound (n : nat) (i : Z) (j : nat) :
  Py.index n i = Ok j -> (j < n)%nat.
Proof.
  unfold Py.index.
  destruct ((0 <=? (if i <? 0 then i + Z.of_nat n else i)) &&
            ((if i <? 0 then i + Z.of_nat n else i) <? Z.of_nat n)) eqn:E;
    [|discriminate].
  apply andb_true_iff in E. destruct E as [H1 H2].
  apply Z.leb_le in H1. apply Z.ltb_lt in H2. intros [= <-]. lia.
Qed.

Lemma getitem_In {A : Type} (l : list A) (i : Z) (a : A) :
  Py.getitem l i = Ok a -> In a l.
Proof.
  unfold Py.getitem. destruct (Py.index (length l) i) as [j|]; simpl;
    [|discriminate].
  destruct (nth_error l j) eqn:E; [|discriminate].
  intros [= <-]. eapply nth_error_In, E.
Qed.

Lemma getitem2_elem {T : Type} (a : Np.ndarray2 T) (y x : Z) (v : T) :
  Np.getitem2 a y x = Ok v ->
  exists r c : nat,
    (r < Np.shape0 a)%nat /\ (c < Np.shape1 a)%nat /\ v = Np.elem a r c.
Proof.
  unfold Np.getitem2.
  destruct (Py.index (Np.shape0 a) y) as [r|] eqn:Er; simpl; [|discriminate].
  destruct (Py.index (Np.shape1 a) x) as [c|] eqn:Ec; simpl; [|discriminate].
  intros [= <-]. exists r, c.
  split; [eapply index_bound, Er|]. split; [eapply index_bound, Ec|].
  reflexivity.
Qed.

Lemma channel_sum_bounds (f : Np.color -> Z) (lo hi : Z)
      (cs : list Np.color) :
  Forall (fun c => lo <= f c <= hi) cs ->
  Z.of_nat (length cs) * lo <= channel_sum f cs <= Z.of_nat (length cs) * hi.
Proof.
  unfold channel_sum. induction 1 as [|c cs Hc _ IH].
  - simpl. lia.
  - cbn [length map fold_right]. rewrite Nat2Z.inj_succ. lia.
Qed.

Lemma quot_between (s n lo hi : Z) :
  0 < n -> n * lo <= s <= n * hi -> lo <= Z.quot s n <= hi.
Proof.
  intros Hn Hs.
  pose proof (Z.quot_rem' s n) as E.
  destruct (Z.le_ge_cases 0 s) as [H|H].
  - pose proof (Z.rem_bound_pos s n H Hn). nia.
  - pose proof (Z.rem_bound_pos_neg s n Hn H). nia.
Qed.

Lemma int_mean_within (lo hi : Z) (cs : list Np.color) :
  cs <> [] -> Forall (color_within lo hi) cs ->
  color_within lo hi (int_mean cs).
Proof.
  intros Hne Hall.
  assert (Hn : 0 < Z.of_nat (length cs)).
  { destruct cs; [congruence|]. simpl length. lia. }
  unfold color_within, int_mean. unfold red at 1, green at 2, blue at 3.
  cbn [fst snd].
  split; [|split]; (apply quot_between; [exact Hn|]);
    apply channel_sum_bounds; (eapply Forall_impl; [|exact Hall]);
    intros c Hc; apply Hc.
Qed.

Lemma visibility_loop_within (lo hi : Z) (i : Z) (masks : list mask_t)
      (images : list image_t) (lut : lut_t) :
  Forall (image_within lo hi) images ->
  forall (colors : list Np.color) (c : Np.color),
    Forall (color_within lo hi) colors ->
    visibility_loop i lut masks images colors = Ok (Some c) ->
    color_within lo hi c.
Proof.
  intros Himg.
  induction lut as [|[cam_id points_2d] lut IH]; intros colors c Hcs.
  - simpl. destruct colors as [|c0 colors]; [discriminate|].
    intros [= <-]. rewrite astype_int_mean by discriminate.
    now apply int_mean_within.
  - simpl visibility_loop.
    destruct (Py.getitem points_2d i) as [point|]; simpl; [|discriminate].
    destruct (Py.int (fst point)) as [x|]; simpl; [|discriminate].
    destruct (Py.int (snd point)) as [y|]; simpl; [|discriminate].
    destruct (in_image masks (cam_id - 1) x y) as [[|]|]; simpl;
      [| now apply IH | discriminate].
    destruct (Py.getitem masks (cam_id - 1)) as [mask|]; simpl;
      [|discriminate].
    destruct (Np.getitem2 mask y x) as [v|]; simpl; [|discriminate].
    destruct (v =? 255); [|discriminate].
    destruct (Py.getitem images (cam_id - 1)) as [image|] eqn:Hi; simpl;
      [|discriminate].
    destruct (Np.getitem2 image y x) as [color|] eqn:Hc; simpl;
      [|discriminate].
    apply IH. apply Forall_app. split; [exact Hcs|].
    constructor; [|constructor].
    destruct (getitem2_elem _ _ _ _ Hc) as (r & k & Hr & Hk & ->).
    apply getitem_In in Hi.
    rewrite Forall_forall in Himg. now apply (Himg image Hi).
Qed.

(** X6: the averaged colour stays in the range of the pixels: when every
    channel of every pixel of the colour images lies between [lo] and
    [hi], so does every channel of a colour the resolver returns; for
    8-bit images the output channels are again in 0 .. 255. *)
Theorem X6_colour_within_pixel_range (lo hi : Z) (i : Z) (lut : lut_t)
        (masks : list mask_t) (images : list image_t) (c : Np.color) :
  Forall (image_within lo hi) images ->
  check_voxel_visibility i lut masks images = Ok (Some c) ->
  color_within lo hi c.
Proof.
  intros Himg Hc.
  apply (visibility_loop_within lo hi i masks images lut Himg [] c);
    [constructor|exact Hc].
Qed.

Lemma X6_witness : color_within 0 255 (25, 0, 0).
Proof.
  apply (X6_colour_within_pixel_range 0 255 0 Scene.lut_inside Scene.whites
           Scene.images (25, 0, 0)).
  - unfold Scene.images.
    repeat (apply Forall_cons;
            [intros r k _ _; unfold color_within, red, green, blue; simpl; lia|]).
    apply Forall_nil.
  - reflexivity.
Defined.

(** ** Growing the silhouettes *)

Lemma nth_error_Forall2 {A B : Type} (R : A -> B -> Prop) (l : list A)
      (l' : list B) :
  Forall2 R l l' ->
  forall (j : nat) (a : A),
    nth_error l j = Some a ->
    exists b : B, nth_error l' j = Some b /\ R a b.
Proof.
  induction 1 as [|a0 b0 l l' H0 _ IH]; intros j a Hj.
  - destruct j; discriminate.
  - destruct j as [|j]; simpl in *.
    + injection Hj as <-. now exists b0.
    + now apply IH.
Qed.

Lemma getitem_Forall2 {A B : Type} (R : A -> B -> Prop) (l : list A)
      (l' : list B) (i : Z) (a : A) :
  Forall2 R l l' -> Py.getitem l i = Ok a ->
  exists b : B, Py.getitem l' i = Ok b /\ R a b.
Proof.
  intros HR. unfold Py.getitem. rewrite <- (Forall2_length HR).
  destruct (Py.index (length l) i) as [j|]; simpl; [|discriminate].
  destruct (nth_error l j) as [a1|] eqn:E; [|discriminate].
  intros [= <-].
  destruct (nth_error_Forall2 R l l' HR j a1 E) as (b & Eb & Hab).
  exists b. now rewrite Eb.
Qed.

Lemma camera_view_mask_le (i : Z) (masks masks' : list mask_t)
      (images : list image_t) (item : Z * list point2) (v : view) :
  Forall2 mask_le masks masks' ->
  camera_view i masks images item = Some v -> v <> Background ->
  camera_view i masks' images item = Some v.
Proof.
  intros Hle. destruct item as [cam_id points_2d]. unfold camera_view.
  destruct (Py.getitem points_2d i) as [[[qx| |] [qy| |]]|]; try discriminate.
  destruct (Py.getitem masks (cam_id - 1)) as [m|] eqn:Hm; try discriminate.
  destruct (getitem_Forall2 _ _ _ _ _ Hle Hm) as (m' & Hm' & H0 & H1 & Hfg).
  rewrite Hm'.
  destruct (Py.getitem images (cam_id - 1)) as [image|]; try discriminate.
  assert (Es : same_shape m' image = same_shape m image).
  { unfold same_shape. now rewrite H0, H1. }
  assert (Eb : in_bounds m' (Py.Qtrunc qx) (Py.Qtrunc qy)
               = in_bounds m (Py.Qtrunc qx) (Py.Qtrunc qy)).
  { unfold in_bounds. now rewrite H0, H1. }
  rewrite Es, Eb.
  destruct (same_shape m image); [|discriminate].
  destruct (in_bounds m (Py.Qtrunc qx) (Py.Qtrunc qy)) eqn:Hb;
    [|intros [= <-] _; reflexivity].
  destruct (in_bounds_range _ _ _ Hb) as [Hy Hx].
  destruct (Z.eqb_spec (Np.elem m (Z.to_nat (Py.Qtrunc qy))
                                (Z.to_nat (Py.Qtrunc qx))) 255) as [E|E].
  - rewrite (Hfg (Z.to_nat (Py.Qtrunc qy)) (Z.to_nat (Py.Qtrunc qx))
                 ltac:(lia) ltac:(lia) E).
    intros [= <-] _. reflexivity.
  - intros [= <-] Hv. congruence.
Qed.

Lemma camera_views_mask_le (i : Z) (masks masks' : list mask_t)
      (images : list image_t) (lut : lut_t) (views : list view) :
  Forall2 mask_le masks masks' ->
  map (camera_view i masks images) lut = map Some views ->
  ~ In Background views ->
  map (camera_view i masks' images) lut = map Some views.
Proof.
  intros Hle. revert views.
  induction lut as [|item lut IH]; intros [|v views] Hv Hbg;
    try discriminate; [reflexivity|].
  simpl in Hv. injection Hv as Hv1 Hv2. simpl. f_equal.
  - apply (camera_view_mask_le _ _ _ _ _ _ Hle Hv1).
    intros ->. apply Hbg. now left.
  - apply IH; [exact Hv2|]. intros H. apply Hbg. now right.
Qed.

(** X7: enlarging the silhouettes never removes a voxel.  When every
    mask is replaced by one of the same shape that is foreground wherever
    the old one was, a voxel that was visible is still visible, with the
    same colour. *)
Theorem X7_visible_stays_visible (i : Z) (lut : lut_t)
        (masks masks' : list mask_t) (images : list image_t)
        (views : list view) (c : Np.color) :
  Forall2 mask_le masks masks' ->
  map (camera_view i masks images) lut = map Some views ->
  check_voxel_visibility i lut masks images = Ok (Some c) ->
  check_voxel_visibility i lut masks' images = Ok (Some c).
Proof.
  intros Hle Hv Hc.
  rewrite (check_by_views _ _ _ _ _ Hv) in Hc.
  destruct (existsb is_background views) eqn:E; [discriminate|].
  assert (Hbg : ~ In Background views).
  { intros H. apply existsb_background in H. congruence. }
  rewrite (check_by_views _ _ _ _ _
             (camera_views_mask_le _ _ _ _ _ _ Hle Hv Hbg)).
  now rewrite E.
Qed.

Lemma mask_le_black_white : mask_le Scene.black Scene.white.
Proof.
  split; [reflexivity|]. split; [reflexivity|]. intros; reflexivity.
Qed.

Lemma mask_le_white : mask_le Scene.white Scene.white.
Proof.
  split; [reflexivity|]. split; [reflexivity|]. intros; reflexivity.
Qed.

Lemma X7_witness :
  check_voxel_visibility 0 Scene.lut_cam1_outside Scene.whites Scene.images
  = Ok (Some (30, 0, 0)).
Proof.
  apply (X7_visible_stays_visible 0 Scene.lut_cam1_outside Scene.cam1_black
           Scene.whites Scene.images
           [OutOfBounds; Foreground (20, 0, 0); Foreground (30, 0, 0);
            Foreground (40, 0, 0)] (30, 0, 0)).
  - unfold Scene.cam1_black, Scene.whites.
    constructor; [exact mask_le_black_white|].
    repeat (constructor; [exact mask_le_white|]). constructor.
  - reflexivity.
  - reflexivity.
Defined.

(** ** One voxel at a time *)

Lemma visibility_loop_same_points (i : Z) (masks : list mask_t)
      (images : list image_t) (lut lut' : lut_t) :
  same_points_at i lut lut' ->
  forall colors : list Np.color,
    visibility_loop i lut masks images colors =
    visibility_loop i lut' masks images colors.
Proof.
  induction 1 as [|[cam pts] [cam' pts'] lut lut' [Hc Hp] _ IH];
    intros colors; [reflexivity|].
  simpl in Hc, Hp. subst cam'. simpl visibility_loop. rewrite <- Hp.
  destruct (Py.getitem pts i) as [point|]; simpl; [|reflexivity].
  destruct (Py.int (fst point)) as [x|]; simpl; [|reflexivity].
  destruct (Py.int (snd point)) as [y|]; simpl; [|reflexivity].
  destruct (in_image masks (cam - 1) x y) as [[|]|]; simpl;
    [|apply IH|reflexivity].
  destruct (Py.getitem masks (cam - 1)) as [mask|]; simpl; [|reflexivity].
  destruct (Np.getitem2 mask y x) as [v|]; simpl; [|reflexivity].
  destruct (v =? 255); [|reflexivity].
  destruct (Py.getitem images (cam - 1)) as [image|]; simpl; [|reflexivity].
  destruct (Np.getitem2 image y x) as [color|]; simpl; [|reflexivity].
  apply IH.
Qed.

(** X8: a voxel is resolved from its own entries of the table alone: two
    tables that hold the same cameras in the same order and agree at
    index [i] give the same answer, or the same exception, for voxel [i],
    whatever they hold at the other indices. *)
Theorem X8_voxel_resolved_from_its_own_points (i : Z) (lut lut' : lut_t)
        (masks : list mask_t) (images : list image_t) :
  same_points_at i lut lut' ->
  check_voxel_visibility i lut masks images =
  check_voxel_visibility i lut' masks images.
Proof.
  intros H. unfold check_voxel_visibility.
  now apply visibility_loop_same_points.
Qed.

Lemma X8_witness :
  check_voxel_visibility 0 Scene.lut_inside Scene.whites Scene.images =
  check_voxel_visibility 0 Scene.lut_two Scene.whites Scene.images.
Proof.
  apply (X8_voxel_resolved_from_its_own_points 0 Scene.lut_inside
           Scene.lut_two Scene.whites Scene.images).
  unfold same_points_at, Scene.lut_inside, Scene.lut_two.
  repeat (constructor; [split; reflexivity|]). constructor.
Defined.

(** ** Equal colours *)

Lemma channel_sum_uniform (f : Np.color -> Z) (c : Np.color)
      (cs : list Np.color) :
  Forall (fun c' => c' = c) cs ->
  channel_sum f cs = f c * Z.of_nat (length cs).
Proof.
  unfold channel_sum. induction 1 as [|c' cs -> _ IH].
  - simpl. lia.
  - cbn [length map fold_right]. rewrite IH, Nat2Z.inj_succ. lia.
Qed.

Lemma int_mean_uniform (c : Np.color) (cs : list Np.color) :
  cs <> [] -> Forall (fun c' => c' = c) cs -> int_mean cs = c.
Proof.
  intros Hne Hall.
  assert (Hn : Z.of_nat (length cs) <> 0).
  { destruct cs; [congruence|]. simpl length. lia. }
  unfold int_mean. rewrite !(channel_sum_uniform _ c cs Hall).
  rewrite !Z.quot_mul by exact Hn.
  destruct c as [[r g] b]. reflexivity.
Qed.

(** X9: when all the cameras that see the voxel see the same colour, the
    voxel gets exactly that colour, however many cameras see it. *)
Theorem X9_common_colour_is_kept (i : Z) (lut : lut_t)
        (masks : list mask_t) (images : list image_t) (views : list view)
        (c : Np.color) :
  map (camera_view i masks images) lut = map Some views ->
  ~ In Background views ->
  In (Foreground c) views ->
  (forall c' : Np.color, In (Foreground c') views -> c' = c) ->
  check_voxel_visibility i lut masks images = Ok (Some c).
Proof.
  intros Hv Hbg Hin Hall.
  rewrite (check_by_views _ _ _ _ _ Hv).
  destruct (existsb is_background views) eqn:E.
  { apply existsb_background in E. contradiction. }
  assert (Hfg : forall c', In c' (foreground_colors views) <->
                           In (Foreground c') views).
  { intros c'. unfold foreground_colors. rewrite in_flat_map. split.
    - intros (v & Hv' & Hc'). destruct v; simpl in Hc'; try tauto.
      destruct Hc' as [<-|[]]. exact Hv'.
    - intros H. exists (Foreground c'). split; [exact H|now left]. }
  destruct (foreground_colors views) as [|c0 cs] eqn:Ec.
  - apply Hfg in Hin. destruct Hin.
  - rewrite int_mean_uniform with (c := c); [reflexivity|discriminate|].
    apply Forall_forall. intros c' Hc'. apply Hall. now apply Hfg.
Qed.

Lemma X9_witness :
  check_voxel_visibility 0 Scene.lut_cam1_outside
                         Scene.whites
                         [Scene.plain 10; Scene.plain 7; Scene.plain 7;
                          Scene.plain 7]
  = Ok (Some (7, 0, 0)).
Proof.
  apply (X9_common_colour_is_kept 0 Scene.lut_cam1_outside Scene.whites
           [Scene.plain 10; Scene.plain 7; Scene.plain 7; Scene.plain 7]
           [OutOfBounds; Foreground (7, 0, 0); Foreground (7, 0, 0);
            Foreground (7, 0, 0)] (7, 0, 0)).
  - reflexivity.
  - simpl. intros [H|[H|[H|[H|[]]]]]; discriminate.
  - simpl. right. now left.
  - simpl. intros c' [H|[H|[H|[H|[]]]]]; congruence.
Defined.

(** ** More on the driver *)

(** The records a completed loop returns. *)
Lemma resolve_loop_ok_inv (lut : lut_t) (masks : list mask_t)
      (images : list image_t) (voxels : list point3) :
  forall (k : nat) (acc out : list record),
    resolve_loop k voxels lut masks images acc = Ok out ->
    exists colours : list (option Np.color),
      length colours = length voxels /\
      (forall (n : nat) (c : option Np.color),
          nth_error colours n = Some c ->
          check_voxel_visibility (Z.of_nat (k + n)) lut masks images = Ok c) /\
      out = acc ++ map to_record (visible_voxels voxels colours).
Proof.
  induction voxels as [|[[x y] z] voxels IH]; intros k acc out Hout.
  - simpl in Hout. injection Hout as <-. exists []. simpl.
    split; [reflexivity|]. split; [|now rewrite app_nil_r].
    intros n c Hn. destruct n; discriminate.
  - simpl resolve_loop in Hout.
    destruct (check_voxel_visibility (Z.of_nat k) lut masks images)
      as [c|e] eqn:Hk; simpl in Hout; [|discriminate].
    assert (Hstep : exists acc',
               resolve_loop (S k) voxels lut masks images acc' = Ok out /\
               acc' = acc ++ map to_record
                                 (visible_voxels [(x, y, z)] [c])).
    { destruct c as [[[r g] b]|]; eexists; (split; [exact Hout|]).
      - reflexivity.
      - simpl. now rewrite app_nil_r. }
    destruct Hstep as (acc' & Hout' & Eacc).
    destruct (IH (S k) acc' out Hout') as (colours & Hl & Hc & Eout).
    exists (c :: colours). split; [simpl; now rewrite Hl|]. split.
    + intros n c' Hn. destruct n as [|n].
      * simpl in Hn. injection Hn as <-. now rewrite Nat.add_0_r.
      * replace (k + S n)%nat with (S k + n)%nat by lia. now apply Hc.
    + rewrite Eout, Eacc. rewrite <- app_assoc. f_equal.
      rewrite <- map_app. f_equal.
      unfold visible_voxels. simpl. rewrite app_nil_r. reflexivity.
Qed.

Lemma visible_voxels_length (voxels : list point3)
      (colours : list (option Np.color)) :
  (length (visible_voxels voxels colours) <= length voxels)%nat.
Proof.
  unfold visible_voxels. revert colours.
  induction voxels as [|v voxels IH]; intros [|c colours]; simpl; try lia.
  rewrite length_app. specialize (IH colours).
  destruct c; simpl; lia.
Qed.

Lemma visible_voxels_In (voxels : list point3)
      (colours : list (option Np.color)) (v : point3) (c : Np.color) :
  In (v, c) (visible_voxels voxels colours) -> In v voxels.
Proof.
  unfold visible_voxels. rewrite in_flat_map.
  intros ([v' c'] & Hin & Hvc). apply in_combine_l in Hin.
  destruct c'; simpl in Hvc; [|destruct Hvc].
  destruct Hvc as [[= <- _]|[]]. exact Hin.
Qed.

Lemma picks_ge (colours : list (option Np.color)) :
  forall k : nat, Forall (fun n => (k <= n)%nat) (map fst (picks k colours)).
Proof.
  induction colours as [|[c|] colours IH]; intros k; simpl.
  - constructor.
  - constructor; [lia|].
    eapply Forall_impl; [|apply (IH (S k))]. simpl. intros n Hn. lia.
  - eapply Forall_impl; [|apply (IH (S k))]. simpl. intros n Hn. lia.
Qed.

Lemma picks_sorted (colours : list (option Np.color)) :
  forall k : nat, StronglySorted lt (map fst (picks k colours)).
Proof.
  induction colours as [|[c|] colours IH]; intros k; simpl.
  - constructor.
  - constructor; [apply IH|].
    eapply Forall_impl; [|apply (picks_ge colours (S k))].
    simpl. intros n Hn. lia.
  - apply IH.
Qed.

Lemma picks_In (colours : list (option Np.color)) :
  forall (k n : nat) (c : Np.color),
    In (n, c) (picks k colours) <->
    exists m : nat, n = (k + m)%nat /\ nth_error colours m = Some (Some c).
Proof.
  induction colours as [|o colours IH]; intros k n c.
  - simpl. split; [intros []|]. intros (m & _ & Hm). destruct m; discriminate.
  - assert (Htail : In (n, c) (picks (S k) colours) <->
                    exists m, n = (k + S m)%nat /\
                              nth_error colours m = Some (Some c)).
    { rewrite IH. split; intros (m & -> & Hm); exists m; split;
        try exact Hm; lia. }
    destruct o as [c0|]; simpl; rewrite ?Htail; split.
    + intros [[= <- <-]|(m & -> & Hm)].
      * exists 0%nat. split; [lia|reflexivity].
      * exists (S m). split; [reflexivity|exact Hm].
    + intros ([|m] & -> & Hm).
      * simpl in Hm. injection Hm as ->. left. f_equal. lia.
      * right. exists m. split; [reflexivity|exact Hm].
    + intros (m & -> & Hm). exists (S m). split; [reflexivity|exact Hm].
    + intros ([|m] & -> & Hm); [discriminate|].
      exists m. split; [reflexivity|exact Hm].
Qed.

Lemma picks_records (voxels : list point3) :
  forall (k : nat) (colours : list (option Np.color)),
    length colours = length voxels ->
    Forall2 (fun (nc : nat * Np.color) (rec : record) =>
               exists (m : nat) (v : point3),
                 fst nc = (k + m)%nat /\ nth_error voxels m = Some v /\
                 rec = to_record (v, snd nc))
            (picks k colours)
            (map to_record (visible_voxels voxels colours)).
Proof.
  induction voxels as [|v voxels IH]; intros k [|o colours] Hl;
    try discriminate.
  - constructor.
  - injection Hl as Hl.
    assert (Htail :
              Forall2 (fun (nc : nat * Np.color) (rec : record) =>
                         exists (m : nat) (v' : point3),
                           fst nc = (k + m)%nat /\
                           nth_error (v :: voxels) m = Some v' /\
                           rec = to_record (v', snd nc))
                      (picks (S k) colours)
                      (map to_record (visible_voxels voxels colours))).
    { eapply Forall2_impl; [|apply (IH (S k) colours Hl)].
      intros nc rec (m & v' & Hn & Hv & Hr).
      exists (S m), v'. split; [lia|]. split; assumption. }
    unfold visible_voxels in *. destruct o as [c|]; simpl.
    + constructor; [|exact Htail].
      exists 0%nat, v. split; [simpl; lia|]. split; reflexivity.
    + exact Htail.
Qed.

(** X10: the records of a pass that completes correspond one to one, and
    in the same order, to the voxels that the resolver reports visible:
    they come from a strictly increasing sequence of voxel indices, which
    are exactly the indices at which the resolver returns a colour, and
    each record holds the coordinates of its voxel divided by 16 and
    truncated, followed by that colour.  So no voxel has two records and
    no invisible voxel has one. *)
Theorem X10_records_come_from_voxels (P : Z -> point3 -> point2)
        (sched : list nat) (voxels : list point3) (masks : list mask_t)
        (images : list image_t) (out : list record) :
  reconstruct P sched voxels masks images = Some (Ok out) ->
  exists picked : list (nat * Np.color),
    StronglySorted lt (map fst picked) /\
    (forall (n : nat) (c : Np.color),
        In (n, c) picked <->
        (n < length voxels)%nat /\
        check_voxel_visibility (Z.of_nat n) (create_lut P voxels) masks images
        = Ok (Some c)) /\
    Forall2 (record_at voxels) picked out.
Proof.
  unfold reconstruct. rewrite create_lut_parallel_spec.
  destruct (completes 4 sched); [|discriminate].
  intros [= Hout].
  destruct (resolve_loop_ok_inv _ _ _ _ _ _ _ Hout)
    as (colours & Hl & Hc & ->).
  rewrite app_nil_l. exists (picks 0 colours).
  split; [apply picks_sorted|]. split.
  - intros n c. rewrite picks_In. cbn [Nat.add]. split.
    + intros (m & -> & Hm). split.
      * rewrite <- Hl. apply nth_error_Some. congruence.
      * now apply Hc.
    + intros [Hn Hcheck]. exists n. split; [reflexivity|].
      destruct (nth_error colours n) as [o|] eqn:E.
      * specialize (Hc n o E). cbn [Nat.add] in Hc. congruence.
      * apply nth_error_None in E. lia.
  - eapply Forall2_impl; [|apply (picks_records voxels 0 colours Hl)].
    intros [n [[r g] b]] rec (m & [[x y] z] & Hn & Hv & ->).
    simpl in Hn. subst m. exists x, y, z, r, g, b.
    split; [exact Hv|]. split; reflexivity.
Qed.

Lemma X10_witness :
  exists picked : list (nat * Np.color),
    StronglySorted lt (map fst picked) /\
    (forall (n : nat) (c : Np.color),
        In (n, c) picked <->
        (n < length Scene.voxels_inside)%nat /\
        check_voxel_visibility (Z.of_nat n)
          (create_lut Scene.drop_z Scene.voxels_inside)
          Scene.whites Scene.images = Ok (Some c)) /\
    Forall2 (record_at Scene.voxels_inside) picked
            [(0, 0, 3, 25, 0, 0); (0, 0, 6, 25, 0, 0)].
Proof.
  exact (X10_records_come_from_voxels Scene.drop_z [0; 1; 2; 3]%nat
           Scene.voxels_inside Scene.whites Scene.images
           [(0, 0, 3, 25, 0, 0); (0, 0, 6, 25, 0, 0)] eq_refl).
Defined.

Lemma resolve_loop_acc (lut : lut_t) (masks : list mask_t)
      (images : list image_t) (voxels : list point3) :
  forall (k : nat) (acc : list record),
    resolve_loop k voxels lut masks images acc =
    (out <- resolve_loop k voxels lut masks images [] ;; Ok (acc ++ out)).
Proof.
  induction voxels as [|[[x y] z] voxels IH]; intros k acc.
  - simpl. now rewrite app_nil_r.
  - simpl resolve_loop.
    destruct (check_voxel_visibility (Z.of_nat k) lut masks images)
      as [[[[r g] b]|]|e]; simpl; [| |reflexivity].
    + rewrite (IH (S k) (acc ++ _)), (IH (S k) [_]).
      destruct (resolve_loop (S k) voxels lut masks images []); simpl;
        [|reflexivity].
      now rewrite <- app_assoc.
    + apply IH.
Qed.

Lemma resolve_loop_app (lut : lut_t) (masks : list mask_t)
      (images : list image_t) (voxels1 voxels2 : list point3) :
  forall (k : nat) (acc : list record),
    resolve_loop k (voxels1 ++ voxels2) lut masks images acc =
    (acc' <- resolve_loop k voxels1 lut masks images acc ;;
     resolve_loop (k + length voxels1) voxels2 lut masks images acc').
Proof.
  induction voxels1 as [|[[x y] z] voxels1 IH]; intros k acc.
  - simpl. now rewrite Nat.add_0_r.
  - simpl app. simpl resolve_loop.
    destruct (check_voxel_visibility (Z.of_nat k) lut masks images)
      as [[[[r g] b]|]|e]; simpl; [| |reflexivity];
      rewrite IH; simpl length;
      now replace (S k + length voxels1)%nat
        with (k + S (length voxels1))%nat by lia.
Qed.

(** X11: the loop over the voxels can be cut anywhere: resolving a first
    range of voxels and then the remaining range, which starts at the
    index where the first one ends, and concatenating the two outputs in
    this order gives the output of the single loop, and the exception of
    the single loop when one of the parts raises. *)
Theorem X11_ranges_concatenate (lut : lut_t) (masks : list mask_t)
        (images : list image_t) (voxels1 voxels2 : list point3) :
  resolve_loop 0 (voxels1 ++ voxels2) lut masks images [] =
  (out1 <- resolve_loop 0 voxels1 lut masks images [] ;;
   out2 <- resolve_loop (length voxels1) voxels2 lut masks images [] ;;
   Ok (out1 ++ out2)).
Proof.
  rewrite resolve_loop_app. cbn [Nat.add].
  destruct (resolve_loop 0 voxels1 lut masks images []) as [out1|e]; simpl;
    [|reflexivity].
  apply resolve_loop_acc.
Qed.

(** ** Masks without background *)

Lemma camera_view_foreground (P : Z -> point3 -> point2)
      (voxels : list point3) (masks : list mask_t) (images : list image_t)
      (n : nat) (v : point3) (cam_id : Z) :
  Forall2 (fun (m : mask_t) (image : image_t) => same_shape m image = true)
          masks images ->
  Forall all_foreground masks ->
  nth_error voxels n = Some v ->
  projects_inside P masks cam_id v ->
  camera_view (Z.of_nat n) masks images (cam_id, project_to_2d P voxels cam_id)
  = Some (Foreground (pixel_color P images cam_id v)).
Proof.
  intros Hshape Hfg Hv (qx & qy & m & HP & Hm & Hb).
  unfold camera_view, pixel_color.
  rewrite (getitem_of_nat (project_to_2d P voxels cam_id) n (P cam_id v)).
  2:{ unfold project_to_2d. now rewrite nth_error_map, Hv. }
  rewrite HP, Hm.
  destruct (getitem_Forall2 _ _ _ _ _ Hshape Hm) as (image & Hi & Hs).
  rewrite Hi, Hs, Hb.
  destruct (in_bounds_range _ _ _ Hb) as [Hy Hx].
  rewrite Forall_forall in Hfg.
  rewrite (Hfg m (getitem_In _ _ _ Hm)
               (Z.to_nat (Py.Qtrunc qy)) (Z.to_nat (Py.Qtrunc qx))
               ltac:(lia) ltac:(lia)).
  reflexivity.
Qed.

Lemma visible_voxels_all (f : point3 -> Np.color) (voxels : list point3) :
  visible_voxels voxels (map (fun v => Some (f v)) voxels) =
  map (fun v => (v, f v)) voxels.
Proof.
  unfold visible_voxels. induction voxels as [|v voxels IH];
    [reflexivity|].
  simpl. now rewrite IH.
Qed.

Lemma reconstruct_full_visibility (P : Z -> point3 -> point2) (sched : list nat)
        (voxels : list point3) (masks : list mask_t)
        (images : list image_t) :
  completes 4 sched = true ->
  Forall2 (fun (m : mask_t) (image : image_t) => same_shape m image = true)
          masks images ->
  Forall all_foreground masks ->
  (forall (cam_id : Z) (v : point3),
      1 <= cam_id <= 4 -> In v voxels -> projects_inside P masks cam_id v) ->
  reconstruct P sched voxels masks images =
  Some (Ok (map (mean_record P images) voxels)).
Proof.
  intros Hc Hshape Hfg Hin.
  unfold reconstruct. rewrite create_lut_parallel_spec, Hc. f_equal.
  rewrite (resolve_loop_records _ masks images voxels 0
             (map (fun v => Some (int_mean
                                    [pixel_color P images 1 v;
                                     pixel_color P images 2 v;
                                     pixel_color P images 3 v;
                                     pixel_color P images 4 v])) voxels) []).
  - rewrite visible_voxels_all, map_map. reflexivity.
  - apply length_map.
  - intros n c Hn. rewrite nth_error_map in Hn.
    destruct (nth_error voxels n) as [v|] eqn:Hv; [|discriminate].
    injection Hn as <-. cbn [Nat.add].
    assert (Hv' : In v voxels) by (eapply nth_error_In, Hv).
    rewrite create_lut_items.
    rewrite (check_by_views _ masks images _
               [Foreground (pixel_color P images 1 v);
                Foreground (pixel_color P images 2 v);
                Foreground (pixel_color P images 3 v);
                Foreground (pixel_color P images 4 v)]).
    + reflexivity.
    + cbn [map].
      rewrite (camera_view_foreground P voxels masks images n v 1 Hshape Hfg
                 Hv (Hin 1 v ltac:(lia) Hv')).
      rewrite (camera_view_foreground P voxels masks images n v 2 Hshape Hfg
                 Hv (Hin 2 v ltac:(lia) Hv')).
      rewrite (camera_view_foreground P voxels masks images n v 3 Hshape Hfg
                 Hv (Hin 3 v ltac:(lia) Hv')).
      rewrite (camera_view_foreground P voxels masks images n v 4 Hshape Hfg
                 Hv (Hin 4 v ltac:(lia) Hv')).
      reflexivity.
Qed.

(** X12: when every mask is entirely foreground, every image has the
    shape of its mask and every voxel projects inside the image of every
    camera, the pass writes exactly one record per voxel, in voxel order,
    coloured with the truncated mean of the four pixels on which the
    voxel projects. *)
Theorem X12_full_visibility (P : Z -> point3 -> point2) (sched : list nat)
        (voxels : list point3) (masks : list mask_t)
        (images : list image_t) :
  completes 4 sched = true ->
  Forall2 (fun (m : mask_t) (image : image_t) => same_shape m image = true)
          masks images ->
  Forall all_foreground masks ->
  (forall (cam_id : Z) (v : point3),
      1 <= cam_id <= 4 -> In v voxels -> projects_inside P masks cam_id v) ->
  reconstruct P sched voxels masks images =
  Some (Ok (map (mean_record P images) voxels)).
Proof. apply reconstruct_full_visibility. Qed.

Lemma X12_witness :
  reconstruct Scene.drop_z [2; 0; 3; 1]%nat Scene.voxels_inside
              Scene.whites Scene.images
  = Some (Ok [(0, 0, 3, 25, 0, 0); (0, 0, 6, 25, 0, 0)]).
Proof.
  apply (X12_full_visibility Scene.drop_z [2; 0; 3; 1]%nat
           Scene.voxels_inside Scene.whites Scene.images).
  - reflexivity.
  - repeat constructor.
  - repeat (apply Forall_cons; [intros r c _ _; reflexivity|]).
    apply Forall_nil.
  - intros cam_id v Hcam Hv.
    assert (E : cam_id = 1 \/ cam_id = 2 \/ cam_id = 3 \/ cam_id = 4) by lia.
    destruct Hv as [<-|[<-|[]]];
      destruct E as [-> | [-> | [-> | ->]]];
      eexists; eexists; eexists;
      (split; [reflexivity|]); (split; [reflexivity|]); reflexivity.
Defined.

(** ** More on the grid *)

Lemma distinct_NoDup (l : list Q) : distinct l = true -> NoDup l.
Proof.
  induction l as [|q l IH]; intros H; [constructor|].
  simpl in H. apply andb_true_iff in H. destruct H as [Hq Hl].
  constructor; [|now apply IH].
  intros Hin. apply negb_true_iff in Hq.
  assert (E : existsb (Qeq_bool q) l = true).
  { apply existsb_exists. exists q. split; [exact Hin|].
    apply Qeq_bool_iff. reflexivity. }
  congruence.
Qed.

Section GridPoints.

Variables xs ys zs : list Q.

Lemma make_grid_index_bounds (n : nat) :
  (n < length zs * length xs * length ys)%nat ->
  ((n / length ys) mod length xs < length xs)%nat /\
  (n mod length ys < length ys)%nat /\
  (n / (length ys * length xs) < length zs)%nat.
Proof.
  intros Hn.
  assert (Hy : length ys <> 0%nat) by (intros E; rewrite E in Hn; lia).
  assert (Hx : length xs <> 0%nat) by (intros E; rewrite E in Hn; lia).
  split; [now apply Nat.mod_upper_bound|].
  split; [now apply Nat.mod_upper_bound|].
  apply Nat.Div0.div_lt_upper_bound. lia.
Qed.

Lemma make_grid_In (x y z : Q) :
  In (x, y, z) (make_grid xs ys zs) <-> In x xs /\ In y ys /\ In z zs.
Proof.
  split.
  - intros Hin. apply In_nth_error in Hin. destruct Hin as [n Hn].
    assert (Hlt : (n < length zs * length xs * length ys)%nat).
    { rewrite <- make_grid_length. apply nth_error_Some.
      unfold point3 in *. congruence. }
    pose proof (make_grid_nth xs ys zs n Hlt) as E.
    unfold point3 in *. rewrite E in Hn. injection Hn as <- <- <-.
    destruct (make_grid_index_bounds n Hlt) as (Hj & Hi & Hk).
    repeat split; now apply nth_In.
  - intros (Hx & Hy & Hz).
    destruct (In_nth xs x 0%Q Hx) as (j & Hj & <-).
    destruct (In_nth ys y 0%Q Hy) as (i & Hi & <-).
    destruct (In_nth zs z 0%Q Hz) as (k & Hk & <-).
    eapply nth_error_In. now apply make_grid_at.
Qed.

Lemma make_grid_NoDup :
  NoDup xs -> NoDup ys -> NoDup zs -> NoDup (make_grid xs ys zs).
Proof.
  intros Nx Ny Nz. apply NoDup_nth_error. intros n m Hn E.
  rewrite make_grid_length in Hn.
  assert (Hm : (m < length zs * length xs * length ys)%nat).
  { rewrite <- make_grid_length. apply nth_error_Some.
    rewrite <- E, (make_grid_nth xs ys zs n Hn). discriminate. }
  rewrite (make_grid_nth xs ys zs n Hn), (make_grid_nth xs ys zs m Hm) in E.
  injection E as Ex Ey Ez.
  destruct (make_grid_index_bounds n Hn) as (Hj & Hi & Hk).
  destruct (make_grid_index_bounds m Hm) as (Hj' & Hi' & Hk').
  apply (proj1 (NoDup_nth xs 0%Q) Nx _ _ Hj Hj') in Ex.
  apply (proj1 (NoDup_nth ys 0%Q) Ny _ _ Hi Hi') in Ey.
  apply (proj1 (NoDup_nth zs 0%Q) Nz _ _ Hk Hk') in Ez.
  rewrite <- !Nat.Div0.div_div in Ez.
  rewrite (Nat.div_mod_eq n (length ys)), (Nat.div_mod_eq m (length ys)).
  rewrite (Nat.div_mod_eq (n / length ys) (length xs)).
  rewrite (Nat.div_mod_eq (m / length ys) (length xs)).
  now rewrite Ex, Ey, Ez.
Qed.

End GridPoints.

Lemma axes_distinct :
  distinct x_range = true /\ distinct y_range = true /\
  distinct z_range = true.
Proof. repeat split; vm_compute; reflexivity. Qed.

Lemma voxel_grid_unfold : voxel_grid = make_grid x_range y_range z_range.
Proof. reflexivity. Qed.

Lemma check_visibility_and_reconstruct_unfold
      (P : Z -> point3 -> point2) (sched : list nat) (masks : list mask_t)
      (images : list image_t) :
  check_visibility_and_reconstruct P sched masks images =
  reconstruct P sched voxel_grid masks images.
Proof. reflexivity. Qed.

Lemma distinct_nth (l : list Q) :
  distinct l = true ->
  forall i j : nat,
    (i < length l)%nat -> (j < length l)%nat ->
    (nth i l 0 == nth j l 0)%Q -> i = j.
Proof.
  induction l as [|q l IH]; intros H i j Hi Hj E; [simpl in Hi; lia|].
  simpl in H. apply andb_true_iff in H. destruct H as [Hq Hl].
  apply negb_true_iff in Hq.
  assert (Hnot : forall k, (k < length l)%nat -> ~ (q == nth k l 0)%Q).
  { intros k Hk Hqk.
    assert (Hex : existsb (Qeq_bool q) l = true).
    { apply existsb_exists. exists (nth k l 0%Q).
      split; [now apply nth_In|]. now apply Qeq_bool_iff. }
    congruence. }
  destruct i as [|i], j as [|j]; simpl in *.
  - reflexivity.
  - exfalso. apply (Hnot j); [lia|exact E].
  - exfalso. apply (Hnot i); [lia|]. now symmetry.
  - f_equal. apply IH; [exact Hl|lia|lia|exact E].
Qed.

(** A flattened mesh of axes without equal samples holds no two voxels of
    equal coordinates. *)
Lemma make_grid_distinct (xs ys zs : list Q) :
  distinct xs = true -> distinct ys = true -> distinct zs = true ->
  forall (n m : nat) (x y z x' y' z' : Q),
    nth_error (make_grid xs ys zs) n = Some (x, y, z) ->
    nth_error (make_grid xs ys zs) m = Some (x', y', z') ->
    (x == x')%Q -> (y == y')%Q -> (z == z')%Q -> n = m.
Proof.
  intros Dx Dy Dz n m x y z x' y' z' Hn Hm Ex Ey Ez.
  assert (Ln : (n < length zs * length xs * length ys)%nat).
  { rewrite <- make_grid_length. apply nth_error_Some.
    unfold point3 in *. congruence. }
  assert (Lm : (m < length zs * length xs * length ys)%nat).
  { rewrite <- make_grid_length. apply nth_error_Some.
    unfold point3 in *. congruence. }
  pose proof (make_grid_nth xs ys zs n Ln) as En.
  pose proof (make_grid_nth xs ys zs m Lm) as Em.
  unfold point3 in *. rewrite En in Hn. rewrite Em in Hm.
  injection Hn as <- <- <-. injection Hm as <- <- <-.
  destruct (make_grid_index_bounds xs ys zs n Ln) as (Hj & Hi & Hk).
  destruct (make_grid_index_bounds xs ys zs m Lm) as (Hj' & Hi' & Hk').
  apply (distinct_nth xs Dx _ _ Hj Hj') in Ex.
  apply (distinct_nth ys Dy _ _ Hi Hi') in Ey.
  apply (distinct_nth zs Dz _ _ Hk Hk') in Ez.
  rewrite <- !Nat.Div0.div_div in Ez.
  rewrite (Nat.div_mod_eq n (length ys)), (Nat.div_mod_eq m (length ys)).
  rewrite (Nat.div_mod_eq (n / length ys) (length xs)).
  rewrite (Nat.div_mod_eq (m / length ys) (length xs)).
  now rewrite Ex, Ey, Ez.
Qed.

(** X13: the flattened mesh is exactly the Cartesian product of its
    axes: a point belongs to it if and only if each coordinate is a
    sample of its axis, and it lists no point twice when the axes list no
    sample twice.  The float64 grid of the driver holds no two voxels
    with the same coordinates: two voxels whose three coordinates are
    equal as numbers have the same index. *)
Theorem X13_grid_is_cartesian_product :
  (forall (xs ys zs : list Q) (x y z : Q),
      In (x, y, z) (make_grid xs ys zs) <-> In x xs /\ In y ys /\ In z zs) /\
  (forall xs ys zs : list Q,
      NoDup xs -> NoDup ys -> NoDup zs -> NoDup (make_grid xs ys zs)) /\
  (forall (n m : nat) (x y z x' y' z' : Q),
      nth_error voxel_grid n = Some (x, y, z) ->
      nth_error voxel_grid m = Some (x', y', z') ->
      (x == x')%Q -> (y == y')%Q -> (z == z')%Q -> n = m) /\
  NoDup voxel_grid.
Proof.
  destruct axes_distinct as (Dx & Dy & Dz).
  split; [exact make_grid_In|]. split; [exact make_grid_NoDup|]. split.
  - rewrite voxel_grid_unfold. now apply make_grid_distinct.
  - rewrite voxel_grid_unfold.
    apply make_grid_NoDup; now apply distinct_NoDup.
Qed.

Lemma axes_indices_within :
  indices_within (-64) 64 x_range = true /\
  indices_within (-64) 64 y_range = true /\
  indices_within 0 128 z_range = true.
Proof. repeat split; vm_compute; reflexivity. Qed.

Lemma indices_within_In (lo hi : Z) (samples : list Q) (x : Q) :
  indices_within lo hi samples = true -> In x samples ->
  lo <= grid_index x <= hi.
Proof.
  unfold indices_within. rewrite forallb_forall. intros H Hin.
  specialize (H x Hin). apply andb_true_iff in H.
  rewrite Z.leb_le, Z.leb_le in H. exact H.
Qed.

Lemma reconstruct_ok_inv (P : Z -> point3 -> point2) (sched : list nat)
      (voxels : list point3) (masks : list mask_t) (images : list image_t)
      (out : list record) :
  reconstruct P sched voxels masks images = Some (Ok out) ->
  exists colours : list (option Np.color),
    length colours = length voxels /\
    out = map to_record (visible_voxels voxels colours).
Proof.
  unfold reconstruct.
  destruct (create_lut_parallel P sched voxels) as [lut|]; [|discriminate].
  intros [= Hout].
  destruct (resolve_loop_ok_inv _ _ _ _ _ _ _ Hout)
    as (colours & Hl & _ & ->).
  now exists colours.
Qed.

Lemma voxel_grid_length : Z.of_nat (length voxel_grid) = 8000000.
Proof.
  rewrite voxel_grid_unfold, make_grid_length.
  destruct axes_length as (-> & -> & ->).
  rewrite !Nat2Z.inj_mul. reflexivity.
Qed.

Lemma records_length (voxels : list point3)
      (colours : list (option Np.color)) :
  (length (map to_record (visible_voxels voxels colours))
   <= length voxels)%nat.
Proof. rewrite length_map. apply visible_voxels_length. Qed.

Lemma records_indices (voxels : list point3)
      (colours : list (option Np.color)) (ix iy iz r g b : Z) :
  In (ix, iy, iz, r, g, b) (map to_record (visible_voxels voxels colours)) ->
  exists x y z : Q,
    In (x, y, z) voxels /\
    ix = grid_index x /\ iy = grid_index y /\ iz = grid_index z.
Proof.
  intros Hin. apply in_map_iff in Hin.
  destruct Hin as ([[[x y] z] [[r' g'] b']] & E & Hin).
  apply visible_voxels_In in Hin.
  simpl in E. injection E as <- <- <- _ _ _.
  now exists x, y, z.
Qed.

(** X14: every record the driver writes for its grid has [ix] and [iy]
    between -64 and 64 and [iz] between 0 and 128, and there are at most
    8,000,000 records. *)
Theorem X14_output_indices_bounded (P : Z -> point3 -> point2)
        (sched : list nat) (masks : list mask_t) (images : list image_t)
        (out : list record) :
  check_visibility_and_reconstruct P sched masks images = Some (Ok out) ->
  Z.of_nat (length out) <= 8000000 /\
  forall ix iy iz r g b : Z,
    In (ix, iy, iz, r, g, b) out ->
    -64 <= ix <= 64 /\ -64 <= iy <= 64 /\ 0 <= iz <= 128.
Proof.
  intros Hrun. rewrite check_visibility_and_reconstruct_unfold in Hrun.
  destruct (reconstruct_ok_inv _ _ _ _ _ _ Hrun) as (colours & Hl & ->).
  clear Hrun Hl. split.
  - pose proof (records_length voxel_grid colours) as Hle.
    pose proof voxel_grid_length as Hg.
    revert Hle Hg.
    generalize (length (map to_record (visible_voxels voxel_grid colours))).
    generalize (length voxel_grid). clear. intros a b Hle Hg. lia.
  - intros ix iy iz r g b Hin.
    destruct (records_indices voxel_grid colours _ _ _ _ _ _ Hin)
      as (x & y & z & Hv & Ex & Ey & Ez).
    clear Hin. rewrite voxel_grid_unfold in Hv.
    destruct (proj1 (make_grid_In _ _ _ _ _ _) Hv) as (Hx & Hy & Hz).
    clear Hv. subst ix iy iz.
    destruct axes_indices_within as (Bx & By & Bz).
    split; [|split]; eapply indices_within_In; eassumption.
Qed.

Lemma X14_witness :
  Z.of_nat (length (map (mean_record (fun _ _ => Scene.finite2 1 1)
                                     Scene.images) voxel_grid)) <= 8000000 /\
  forall ix iy iz r g b : Z,
    In (ix, iy, iz, r, g, b)
       (map (mean_record (fun _ _ => Scene.finite2 1 1) Scene.images)
            voxel_grid) ->
    -64 <= ix <= 64 /\ -64 <= iy <= 64 /\ 0 <= iz <= 128.
Proof.
  apply (X14_output_indices_bounded (fun _ _ => Scene.finite2 1 1)
           [0; 1; 2; 3]%nat Scene.whites Scene.images).
  rewrite check_visibility_and_reconstruct_unfold.
  apply reconstruct_full_visibility.
  - reflexivity.
  - repeat constructor.
  - repeat (apply Forall_cons; [intros r c _ _; reflexivity|]).
    apply Forall_nil.
  - intros cam_id v Hcam _.
    assert (E : cam_id = 1 \/ cam_id = 2 \/ cam_id = 3 \/ cam_id = 4) by lia.
    destruct E as [-> | [-> | [-> | ->]]];
      exists 1%Q, 1%Q, Scene.white;
      (split; [reflexivity|]); (split; [reflexivity|]); reflexivity.
Defined.

(** ** The index of a coordinate *)

Lemma grid_index_quot (n : Z) (d : positive) :
  grid_index (n # d) = Z.quot n (Zpos (d * 16)).
Proof.
  unfold grid_index, Py.Qtrunc, Qdiv, Qmult, Qinv. simpl.
  now rewrite Z.mul_1_r.
Qed.

Lemma quot_positive_cell (n D k : Z) :
  0 < D -> 0 < k -> (Z.quot n D = k <-> k * D <= n < (k + 1) * D).
Proof.
  intros HD Hk. pose proof (Z.quot_rem' n D) as E. split.
  - intros Hq. rewrite Hq in E.
    destruct (Z.le_ge_cases 0 n) as [Hn|Hn].
    + pose proof (Z.rem_bound_pos n D Hn HD). nia.
    + pose proof (Z.rem_bound_pos_neg n D HD Hn). nia.
  - intros [Hlo Hhi]. symmetry.
    apply (Z.quot_unique n D k (n - D * k)); nia.
Qed.

(** X15: the cells of the output indices.  For a positive index [k] the
    coordinates with [int(x / 16) = k] are those with
    [16 k <= x < 16 (k + 1)], for a negative index those with
    [16 (k - 1) < x <= 16 k], each a band of width 16; because the
    conversion truncates toward zero the index 0 collects the whole band
    [-16 < x < 16], of width 32, twice the width of any other cell.  The
    index is odd and monotone in the coordinate. *)
Theorem X15_index_of_coordinate :
  (forall (x : Q) (k : Z), 0 < k ->
      (grid_index x = k <->
       (inject_Z (16 * k) <= x /\ x < inject_Z (16 * (k + 1)))%Q)) /\
  (forall (x : Q) (k : Z), k < 0 ->
      (grid_index x = k <->
       (inject_Z (16 * (k - 1)) < x /\ x <= inject_Z (16 * k))%Q)) /\
  (forall x : Q, grid_index x = 0 <-> (-16 < x /\ x < 16)%Q) /\
  (forall x : Q, grid_index (- x) = - grid_index x) /\
  (forall x y : Q, (x <= y)%Q -> grid_index x <= grid_index y).
Proof.
  split; [|split; [|split; [|split]]].
  - intros [n d] k Hk. rewrite grid_index_quot.
    rewrite (quot_positive_cell n (Zpos (d * 16)) k) by lia.
    unfold Qle, Qlt, inject_Z. cbn [Qnum Qden].
    rewrite Pos2Z.inj_mul. lia.
  - intros [n d] k Hk. rewrite grid_index_quot.
    assert (E : Z.quot n (Zpos (d * 16)) = k <->
                Z.quot (- n) (Zpos (d * 16)) = - k).
    { rewrite Z.quot_opp_l by discriminate. lia. }
    rewrite E.
    rewrite (quot_positive_cell (- n) (Zpos (d * 16)) (- k)) by lia.
    unfold Qle, Qlt, inject_Z. cbn [Qnum Qden].
    rewrite Pos2Z.inj_mul. lia.
  - intros [n d]. rewrite grid_index_quot.
    rewrite Z.quot_small_iff by discriminate.
    unfold Qlt. simpl. rewrite Pos2Z.inj_mul. lia.
  - intros [n d]. unfold Qopp. simpl Qnum. simpl Qden.
    rewrite !grid_index_quot. apply Z.quot_opp_l. discriminate.
  - intros [n d] [m e] Hle. rewrite !grid_index_quot.
    unfold Qle in Hle. simpl in Hle.
    rewrite <- (Z.quot_mul_cancel_r n (Zpos (d * 16)) (Zpos (e * 16)))
      by discriminate.
    rewrite <- (Z.quot_mul_cancel_r m (Zpos (e * 16)) (Zpos (d * 16)))
      by discriminate.
    rewrite (Z.mul_comm (Zpos (e * 16)) (Zpos (d * 16))).
    apply Z.quot_le_mono; [lia|].
    rewrite !Pos2Z.inj_mul. nia.
Qed.

(** ** Projections that are not finite *)

Lemma check_not_finite (P : Z -> point3 -> point2) (voxels : list point3)
      (masks : list mask_t) (images : list image_t) (n : nat) (v : point3) :
  nth_error voxels n = Some v ->
  is_finite (fst (P 1 v)) && is_finite (snd (P 1 v)) = false ->
  exists e : exn,
    check_voxel_visibility (Z.of_nat n) (create_lut P voxels) masks images
    = Raise e /\ (e = ValueError \/ e = OverflowError).
Proof.
  intros Hv Hnf. unfold check_voxel_visibility. rewrite create_lut_items.
  simpl visibility_loop.
  rewrite (getitem_of_nat (project_to_2d P voxels 1) n (P 1 v)).
  2:{ unfold project_to_2d. now rewrite nth_error_map, Hv. }
  simpl bind.
  destruct (P 1 v) as [[qx|sx|] [qy|sy|]]; simpl in Hnf; try discriminate;
    simpl; eexists; (split; [reflexivity|]); auto.
Qed.

(** X16: camera 1 comes first in the table, so a voxel whose projection
    in camera 1 has a coordinate that is infinite or not a number stops
    the pass: wherever the voxel is in the grid, the pass ends with an
    exception and writes no record, although the other voxels are
    sound. *)
Theorem X16_non_finite_projection_stops_the_pass
        (P : Z -> point3 -> point2) (sched : list nat)
        (voxels : list point3) (masks : list mask_t) (images : list image_t)
        (v : point3) :
  completes 4 sched = true ->
  In v voxels ->
  is_finite (fst (P 1 v)) && is_finite (snd (P 1 v)) = false ->
  exists e : exn,
    reconstruct P sched voxels masks images = Some (Raise e).
Proof.
  intros Hc Hin Hnf. unfold reconstruct.
  rewrite create_lut_parallel_spec, Hc.
  apply In_nth_error in Hin. destruct Hin as [n Hn].
  destruct (check_not_finite P voxels masks images n v Hn Hnf)
    as (e & He & _).
  destruct (resolve_loop_outcome (create_lut P voxels) masks images voxels
              0 []) as [(out & _ & Hall)|(m & e' & _ & _ & _ & Hr)].
  - assert (Hlt : (n < length voxels)%nat).
    { apply nth_error_Some. congruence. }
    destruct (Hall n Hlt) as [c Hc']. cbn [Nat.add] in Hc'. congruence.
  - exists e'. now rewrite Hr.
Qed.

Lemma X16_witness :
  exists e : exn,
    reconstruct Scene3.nan_at_100 [0; 1; 2; 3]%nat Scene.voxels_inside
                Scene.whites Scene.images = Some (Raise e).
Proof.
  apply (X16_non_finite_projection_stops_the_pass Scene3.nan_at_100
           [0; 1; 2; 3]%nat Scene.voxels_inside Scene.whites Scene.images
           (3, 1, 100)%Q).
  - reflexivity.
  - right. now left.
  - reflexivity.
Defined.
